(** * Keyword Mapping Tool: the mapping engine of [keyword.py]

    A shallow embedding of the keyword-to-product mapping pass of
    [src/keyword.py] (the "Start Mapping" branch, lines 98-119), of the
    helpers [load_data] and [concatenate_columns], and of the two upload
    blocks of the script, followed by the properties the specification
    states about them.

    Conventions.
    - A Python [str] is the [string] of the bytes of its UTF-8 encoding.
    - A row of a pandas [DataFrame] is a finite map from column names to
      cells; a column that is absent from the map is a null (NaN) cell.
    - A Python [dict] is a [gmap]; [d.get(k, v)] is [default v (d !! k)].
    - [flashtext.KeywordProcessor] and the iteration order of a Python [set]
      are not part of [keyword.py]; they are interfaces ([KeywordProcessor],
      [PySet]) over which the mapping pass is parametric. *)

From Stdlib Require Import Ascii.
From Stdlib Require String.
From stdpp Require Import base option list gmap strings.

(** ** Python string primitives *)

Module Py.

(** [sep.join(l)] *)
Fixpoint join (sep : string) (l : list string) : string :=
  match l with
  | [] => ""
  | x :: l' => match l' with [] => x | _ :: _ => x +:+ sep +:+ join sep l' end
  end.

(** [s.startswith(pre)] *)
Fixpoint startswith (s pre : string) {struct pre} : bool :=
  match pre, s with
  | "", _ => true
  | String _ _, "" => false
  | String a p, String b r => bool_decide (a = b) && startswith r p
  end.

(** Puts a character in front of the first piece of a split. *)
Definition cons_head (c : ascii) (l : list string) : list string :=
  match l with
  | [] => [String c ""]
  | h :: t => String c h :: t
  end.

(** [s.split(sep)] for a non-empty separator: the pieces between the
    occurrences of [sep], found left to right without overlap.  [skip]
    counts the characters of a matched separator still to be passed over. *)
Fixpoint split_go (sep : string) (skip : nat) (s : string) : list string :=
  match s with
  | "" => [""]
  | String c r =>
      match skip with
      | S k => split_go sep k r
      | O =>
          if startswith (String c r) sep
          then "" :: split_go sep (String.length sep - 1) r
          else cons_head c (split_go sep 0 r)
      end
  end.

Definition split (sep s : string) : list string := split_go sep 0 s.

(** [sub in s] *)
Fixpoint contains (sub s : string) : bool :=
  startswith s sub ||
  match s with
  | "" => false
  | String _ r => contains sub r
  end.

(** A string from the values of its bytes. *)
Definition of_bytes (l : list nat) : string :=
  foldr (λ n s, String (ascii_of_nat n) s) "" l.

(** The characters for which [str.isspace] holds, each as the bytes of its
    UTF-8 encoding: U+0009 to U+000D, U+001C to U+001F, U+0020, U+0085,
    U+00A0, U+1680, U+2000 to U+200A, U+2028, U+2029, U+202F, U+205F and
    U+3000. *)
Definition whitespace : list string :=
  of_bytes <$>
    [ [9]; [10]; [11]; [12]; [13]; [28]; [29]; [30]; [31]; [32];
      [194; 133]; [194; 160]; [225; 154; 128];
      [226; 128; 128]; [226; 128; 129]; [226; 128; 130]; [226; 128; 131];
      [226; 128; 132]; [226; 128; 133]; [226; 128; 134]; [226; 128; 135];
      [226; 128; 136]; [226; 128; 137]; [226; 128; 138];
      [226; 128; 168]; [226; 128; 169]; [226; 128; 175];
      [226; 129; 159]; [227; 128; 128] ].

(** The first of [candidates] that [s] starts with. *)
Fixpoint first_prefix (s : string) (candidates : list string) : option string :=
  match candidates with
  | [] => None
  | w :: rest => if startswith s w then Some w else first_prefix s rest
  end.

(** The white-space character at the front of [s], if there is one. *)
Definition leading_space (s : string) : option string := first_prefix s whitespace.

(** [s.lstrip()]: white-space characters are passed over from the left;
    [skip] counts the bytes of the current one still to be passed over. *)
Fixpoint lstrip_go (skip : nat) (s : string) : string :=
  match s with
  | "" => ""
  | String c r =>
      match skip with
      | S k => lstrip_go k r
      | O =>
          match leading_space (String c r) with
          | Some w => lstrip_go (String.length w - 1) r
          | None => String c r
          end
      end
  end.

Definition lstrip (s : string) : string := lstrip_go 0 s.

(** [s] holds white-space characters only (it may be empty). *)
Fixpoint blank_go (skip : nat) (s : string) : bool :=
  match s with
  | "" => true
  | String c r =>
      match skip with
      | S k => blank_go k r
      | O =>
          match leading_space (String c r) with
          | Some w => blank_go (String.length w - 1) r
          | None => false
          end
      end
  end.

Definition blank (s : string) : bool := blank_go 0 s.

(** [s.rstrip()]: what is left of [s] once its white-space end is cut. *)
Fixpoint rstrip (s : string) : string :=
  match s with
  | "" => ""
  | String c r => if blank (String c r) then "" else String c (rstrip r)
  end.

(** [s.strip()] *)
Definition strip (s : string) : string := rstrip (lstrip s).

(** [s.endswith(suffix)] *)
Definition endswith (s suffix : string) : bool :=
  startswith (String.rev s) (String.rev suffix).

End Py.

(** ** What the script takes from its runtime *)

(** The order in which a Python [set] built from the items of [l] is
    iterated ([list(set(l))], [sep.join(set(l))]).  The language fixes no
    order; it only promises every element once. *)
Class PySet := {
  set_elements : list string → list string;
  set_elements_NoDup l : NoDup (set_elements l);
  set_elements_elem l x : x ∈ set_elements l ↔ x ∈ l
}.

(** [flashtext.KeywordProcessor] as [keyword.py] uses it: the constructor
    without arguments (line 98), [add_keyword(keyword)] (line 105) and
    [extract_keywords(sentence)] (line 112). *)
Class KeywordProcessor := {
  processor : Type;
  new_processor : processor;
  add_keyword : string → processor → processor;
  kp_extract_keywords : processor → string → list string
}.

(** A row of [key_data]: column name to cell, an absent column being null. *)
Abbreviation row := (gmap string string).

(** [[row[col] for col in columns if pd.notnull(row[col])]] (lines 102, 103) *)
Definition notnull_cells (columns : list string) (r : row) : list string :=
  omap (λ col, r !! col) columns.

(** [", ".join(products) if products else "-"] (line 106) *)
Definition product_string (products : list string) : string :=
  match products with
  | [] => "-"
  | _ :: _ => Py.join ", " products
  end.

Section mapping.
Context {KP : KeywordProcessor}.

(** The body of the loop over [key_data.iterrows()] (lines 102-106): every
    non-null keyword of the row is added to the processor and bound, in
    [product_map], to the joined products of the row. *)
Definition add_row (key_columns prod_columns : list string)
    (index : processor * gmap string string) (r : row) : processor * gmap string string :=
  let keywords := notnull_cells key_columns r in
  let products := notnull_cells prod_columns r in
  foldl (λ idx keyword,
           (add_keyword keyword idx.1, <[keyword := product_string products]> idx.2))
        index keywords.

(** Lines 98-106: the processor and [product_map] after the loop. *)
Definition build_index (key_data : list row) (key_columns prod_columns : list string)
    : processor * gmap string string :=
  foldl (add_row key_columns prod_columns) (new_processor, ∅) key_data.

Context {PS : PySet}.

(** [list(set(keyword_processor.extract_keywords(description)))] (line 112) *)
Definition matched_keywords (kp : processor) (description : string) : list string :=
  set_elements (kp_extract_keywords kp description).

(** The local function [extract_keywords] (lines 111-113). *)
Definition extract_keywords (kp : processor) (description : string) : string :=
  let matched := matched_keywords kp description in
  match matched with
  | [] => "-"
  | _ :: _ => Py.join ", " matched
  end.

(** [x.split(", ") if k]: the non-empty pieces of the joined keywords. *)
Definition fragments (x : string) : list string :=
  filter (λ k, k ≠ "") (Py.split ", " x).

(** [set(product_map.get(k, "-") for k in x.split(", ") if k)] (line 118) *)
Definition product_strings (product_map : gmap string string) (x : string) : list string :=
  set_elements ((λ k, default "-" (product_map !! k)) <$> fragments x).

(** The lambda applied to the column [Mapped_Keyword] (lines 117-119). *)
Definition Mapped_Product (product_map : gmap string string) (x : string) : string :=
  if decide (x ≠ "-") then Py.join ", " (product_strings product_map x) else "-".

(** One description through lines 115-119: its [Mapped_Keyword] and its
    [Mapped_Product]. *)
Definition map_description (index : processor * gmap string string) (description : string)
    : string * string :=
  let x := extract_keywords index.1 description in
  (x, Mapped_Product index.2 x).

(** The mapping pass (lines 98-119) over the column
    [Concatenated_Description]. *)
Definition start_mapping (key_data : list row) (key_columns prod_columns : list string)
    (descriptions : list string) : list (string * string) :=
  map_description (build_index key_data key_columns prod_columns) <$> descriptions.

End mapping.

(** [product_map[keyword] = v] for every keyword of a list: the effect of
    one row on [product_map]. *)
Definition bind_all (v : string) (product_map : gmap string string) (keywords : list string)
    : gmap string string :=
  foldl (λ pm keyword, <[keyword := v]> pm) product_map keywords.

(** Section 4.2 of the specification, in its words: "for every keyword in
    [extracted], look up its product list in the index; if absent or empty,
    substitute "-"; collect the set of these resolved product strings",
    rendered joined with [", "].  [matched] is the extracted keyword set. *)
Definition per_keyword_products {PS : PySet} (product_map : gmap string string)
    (matched : list string) : string :=
  Py.join ", " (set_elements ((λ k, default "-" (product_map !! k)) <$> matched)).

(** ** Two iteration orders and a keyword processor to run the pass with *)

(** First-insertion order, and its reverse. *)
Program Definition insertion_order : PySet :=
  {| set_elements l := remove_dups l |}.
Next Obligation. intros l. apply NoDup_remove_dups. Qed.
Next Obligation. intros l x. apply elem_of_remove_dups. Qed.

Program Definition reverse_order : PySet :=
  {| set_elements l := reverse (remove_dups l) |}.
Next Obligation. intros l. rewrite reverse_Permutation. apply NoDup_remove_dups. Qed.
Next Obligation. intros l x. rewrite elem_of_reverse. apply elem_of_remove_dups. Qed.

(** Modelled from the spec: [flashtext.KeywordProcessor], the library class
    [keyword.py] imports; its code is not part of the repository.  Section
    4.1 of the specification: [add] "registers or overwrites the entry" and
    "fails silently on empty/null keyword (skip)"; [extract] "returns the
    set of distinct registered keywords that occur as substrings of text". *)
Definition substring_processor : KeywordProcessor :=
  {| processor := list string;
     new_processor := [];
     add_keyword keyword kp := if decide (keyword = "") then kp else kp ++ [keyword];
     kp_extract_keywords kp text := remove_dups (filter (λ k, Py.contains k text = true) kp) |}.




(** ** Column concatenation (lines 39-40) *)

Section concatenate.
Context {V : Type} (astype_str : V → string).

(** The lambda of [concatenate_columns] on one row of [df[columns]]:
    [" ".join(row.dropna().astype(str))]. *)
Definition concatenate_row (columns : list string) (r : gmap string V) : string :=
  Py.join " " (astype_str <$> omap (λ col, r !! col) columns).

(** [Series.fillna(v)] on one cell of a Series of strings. *)
Definition fillna_cell (v : string) (cell : option string) : string := default v cell.

(** [df[columns].apply(lambda row: ..., axis=1).fillna("-")]; the script
    calls it with a non-empty selection (line 66). *)
Definition concatenate_columns (df : list (gmap string V)) (columns : list string)
    : list string :=
  (λ r, fillna_cell "-" (Some (concatenate_row columns r))) <$> df.

End concatenate.

(** ** Manual keyword entry (lines 87-89) *)

(** [[kw.strip() for kw in manual_keywords.split(",") if kw.strip()]] *)
Definition manual_keyword_list (manual_keywords : string) : list string :=
  Py.strip <$> filter (λ kw, Py.strip kw ≠ "") (Py.split "," manual_keywords).

(** [c] is the first byte of a white-space character. *)
Definition is_first (c : ascii) : bool :=
  existsb (λ w, match w with
                | "" => false
                | String d _ => bool_decide (c = d)
                end) Py.whitespace.

(** [s] is a run of white-space characters. *)
Inductive Blank : string → Prop :=
  | Blank_nil : Blank ""
  | Blank_cons (w s : string) : w ∈ Py.whitespace → Blank s → Blank (w +:+ s).

(** [k] is [token] without the white space at its two ends: what is cut off
    is white space only, and [k] neither starts nor ends with a white-space
    character. *)
Definition trimmed (token k : string) : Prop :=
  (∃ before after, Blank before ∧ Blank after ∧ token = before +:+ k +:+ after)
  ∧ (∀ w rest, w ∈ Py.whitespace → k ≠ w +:+ rest)
  ∧ (∀ w front, w ∈ Py.whitespace → k ≠ front +:+ w).

(** The branch [elif manual_keywords:]: [key_data], [key_columns] and
    [prod_columns] after it, or [None] when the text area is empty and the
    branch is not taken. *)
Definition manual_entry (manual_keywords : string)
    : option (list row * list string * list string) :=
  if decide (manual_keywords ≠ "")
  then Some ((λ kw, {["Keywords" := kw]}) <$> manual_keyword_list manual_keywords,
             ["Keywords"], [])
  else None.

(** ** Loading an upload (lines 26-37) and the two upload blocks *)

Record DataFrame := { columns : list string; rows : list row }.

(** [df.fillna(v)]: every null cell of every column becomes [v]. *)
Definition fillna (v : string) (df : DataFrame) : DataFrame :=
  {| columns := columns df;
     rows := (λ r, foldr (λ col r', match r' !! col with
                                    | None => <[col := v]> r'
                                    | Some _ => r'
                                    end) r (columns df)) <$> rows df |}.

(** [df.head(n)] *)
Definition head (n : nat) (df : DataFrame) : DataFrame :=
  {| columns := columns df; rows := take n (rows df) |}.

Record UploadedFile := { name : string; content : string }.

Record PyException := { exc_type : string; exc_text : string }.

(** What the script shows on the page. *)
Inductive ui_event :=
  | st_error (msg : string)
  | st_warning (msg : string)
  | st_dataframe (df : DataFrame)
  | st_multiselect (label : string) (options : list string).

(** A run of script code: it appends to the page and either returns or
    raises. *)
Definition app (A : Type) : Type := list ui_event → (PyException + A) * list ui_event.

Definition ret {A} (a : A) : app A := λ page, (inr a, page).

Definition bind {A B} (m : app A) (k : A → app B) : app B :=
  λ page, match m page with
          | (inl e, page') => (inl e, page')
          | (inr a, page') => k a page'
          end.

Definition raise {A} (e : PyException) : app A := λ page, (inl e, page).

Definition show (ev : ui_event) : app () := λ page, (inr (), page ++ [ev]).

(** [try: m except Exception as e: handler e] *)
Definition try_except {A} (m : app A) (handler : PyException → app A) : app A :=
  λ page, match m page with
          | (inl e, page') => handler e page'
          | (inr a, page') => (inr a, page')
          end.

#[global] Instance app_ret : MRet app := @ret.
#[global] Instance app_bind : MBind app := λ A B k m, bind m k.

(** The three pandas readers: on the bytes of a file each one returns a
    frame or raises. *)
Class PandasReaders := {
  read_csv : string → PyException + DataFrame;
  read_excel : string → PyException + DataFrame;
  read_json : string → PyException + DataFrame
}.

Definition run_reader (r : PyException + DataFrame) : app DataFrame :=
  match r with
  | inl e => raise e
  | inr df => ret df
  end.

Section uploads.
Context {PR : PandasReaders}.

(** [load_data] (lines 27-37), without its cache decorator: a reader that
    raises is caught and reported, and every path that does not return a
    frame ends in [return None]. *)
Definition load_data (file : UploadedFile) : app (option DataFrame) :=
  try_except
    (if Py.endswith (name file) ".csv"
     then df ← run_reader (read_csv (content file)); mret (Some (fillna "-" df))
     else if Py.endswith (name file) ".xlsx"
     then df ← run_reader (read_excel (content file)); mret (Some (fillna "-" df))
     else if Py.endswith (name file) ".json"
     then df ← run_reader (read_json (content file)); mret (Some (fillna "-" df))
     else mret None)
    (λ e, show (st_error ("Error reading file: " +:+ exc_text e));; mret None).

(** [desc_dataset.head(1000)] on what [load_data] returned: [None] has no
    attribute [head]. *)
Definition head_of (desc_dataset : option DataFrame) : app DataFrame :=
  match desc_dataset with
  | Some df => mret (head 1000 df)
  | None =>
      raise {| exc_type := "AttributeError";
               exc_text := "'NoneType' object has no attribute 'head'" |}
  end.

(** [desc_dataset['Concatenated_Description'] = ...] *)
Definition set_column (col : string) (values : list string) (df : DataFrame) : DataFrame :=
  {| columns := if decide (col ∈ columns df) then columns df else columns df ++ [col];
     rows := zip_with (λ r v, <[col := v]> r) (rows df) values |}.

(** The description upload (lines 60-67); [selected] is what the user picks
    in the multiselect.  The result is [desc_dataset] and [desc_columns]. *)
Definition desc_upload (desc_dataset_file : option UploadedFile) (selected : list string)
    : app (option DataFrame * list string) :=
  match desc_dataset_file with
  | None => mret (None, [])
  | Some file =>
      desc_dataset ← load_data file;
      preview ← head_of desc_dataset;
      show (st_dataframe preview);;
      show (st_warning "Preview limited to the first 1000 rows.");;
      match desc_dataset with
      | Some df =>
          show (st_multiselect "📌 Select Description Columns" (columns df));;
          match selected with
          | [] => mret (Some df, [])
          | _ :: _ =>
              mret (Some (set_column "Concatenated_Description"
                            (concatenate_columns id (rows df) selected) df),
                    selected)
          end
      | None => mret (None, [])
      end
  end.

(** The keyword upload (lines 79-86); the result is [key_data],
    [key_columns] and [prod_columns]. *)
Definition key_upload (key_dataset_file : UploadedFile) (selected_keys selected_prods : list string)
    : app (option DataFrame * list string * list string) :=
  key_data ← load_data key_dataset_file;
  match key_data with
  | Some df =>
      show (st_multiselect "🔍 Select Keyword Columns" (columns df));;
      show (st_multiselect "📦 Select Product Columns" (columns df));;
      mret (Some df, selected_keys, selected_prods)
  | None => mret (None, [], [])
  end.

End uploads.

(** The branch of [load_data] that the name of [file] selects returns the
    frame [df] from its reader. *)
Definition parses_to {PR : PandasReaders} (file : UploadedFile) (df : DataFrame) : Prop :=
  (Py.endswith (name file) ".csv" = true ∧ read_csv (content file) = inr df)
  ∨ (Py.endswith (name file) ".csv" = false ∧ Py.endswith (name file) ".xlsx" = true
     ∧ read_excel (content file) = inr df)
  ∨ (Py.endswith (name file) ".csv" = false ∧ Py.endswith (name file) ".xlsx" = false
     ∧ Py.endswith (name file) ".json" = true ∧ read_json (content file) = inr df).

(** The reader that the name of [file] selects raises [err]. *)
Definition raises_with {PR : PandasReaders} (file : UploadedFile) (err : PyException)
    : Prop :=
  (Py.endswith (name file) ".csv" = true ∧ read_csv (content file) = inl err)
  ∨ (Py.endswith (name file) ".csv" = false ∧ Py.endswith (name file) ".xlsx" = true
     ∧ read_excel (content file) = inl err)
  ∨ (Py.endswith (name file) ".csv" = false ∧ Py.endswith (name file) ".xlsx" = false
     ∧ Py.endswith (name file) ".json" = true ∧ read_json (content file) = inl err).

(** ** Where the keywords come from, and the guard of the mapping *)

Section keyword_source.
Context {PR : PandasReaders}.

(** Lines 76-92: [key_data], [key_columns] and [prod_columns] start as
    [None], [[]] and [[]]; an uploaded keyword file is loaded, the text area
    is read only when no file is uploaded ([elif]), and the warning of line
    92 is shown when no keyword column is selected. *)
Definition keyword_source (key_dataset_file : option UploadedFile)
    (selected_keys selected_prods : list string) (manual_keywords : string)
    : app (option DataFrame * list string * list string) :=
  source ←
    match key_dataset_file with
    | Some file => key_upload file selected_keys selected_prods
    | None =>
        match manual_entry manual_keywords with
        | Some (key_rows, key_columns, prod_columns) =>
            mret (Some {| columns := ["Keywords"]; rows := key_rows |},
                  key_columns, prod_columns)
        | None => mret (None, [], [])
        end
    end;
  match source.1.2 with
  | [] => show (st_warning "⚠️ Please provide at least one keyword column.")
  | _ :: _ => mret ()
  end;;
  mret source.

End keyword_source.

(** The condition of line 94:
    [desc_columns and key_data is not None and key_columns]. *)
Definition ready_to_map (desc_columns : list string) (key_data : option DataFrame)
    (key_columns : list string) : bool :=
  bool_decide (desc_columns ≠ []) && bool_decide (is_Some key_data)
  && bool_decide (key_columns ≠ []).

(** ** Sample data *)

Definition milk_dairy : row := {[ "Keyword" := "milk"; "Product" := "Dairy" ]}.
Definition milk_oat : row := {[ "Keyword" := "milk"; "Product" := "Oat"; "Other" := "Soy" ]}.
Definition bread_bakery : row := {[ "Keyword" := "bread"; "Product" := "Bakery" ]}.
Definition delimiter_row : row := {[ "Keyword" := "a, b"; "Product" := "P" ]}.
Definition dash_row : row := {[ "Keyword" := "-"; "Product" := "Q" ]}.

(** Readers for which no upload parses. *)
Definition unreadable : PandasReaders :=
  {| read_csv _ := inl {| exc_type := "EmptyDataError";
                          exc_text := "No columns to parse from file" |};
     read_excel _ := inl {| exc_type := "BadZipFile"; exc_text := "File is not a zip file" |};
     read_json _ := inl {| exc_type := "ValueError"; exc_text := "Expected object or value" |} |}.

(** Readers that parse every upload to the same two-row frame, the second
    row lacking its note. *)
Definition two_rows : PandasReaders :=
  let df := {| columns := ["Title"; "Notes"];
               rows := [ {[ "Title" := "Fresh milk"; "Notes" := "1 l" ]};
                         {[ "Title" := "Rye bread" ]} ] |} in
  {| read_csv _ := inr df; read_excel _ := inr df; read_json _ := inr df |}.

(** An empty file with a supported suffix. *)
Definition empty_csv : UploadedFile := {| name := "descriptions.csv"; content := "" |}.

(** The index of the rows above, searched by substring. *)
Definition sample_index (key_data : list row) : list string * gmap string string :=
  @build_index substring_processor key_data ["Keyword"] ["Product"].

(** ** Facts about the string primitives *)

Module PyFacts.
Import Py.

Lemma startswith_sep (s : string) :
  startswith s ", " = true ↔ ∃ r, s = String "," (String " " r).
Proof.
  split.
  - destruct s as [|c [|d r]]; cbn [startswith];
      rewrite ?andb_true_iff, ?bool_decide_eq_true; [done|intros [_ [=]]|].
    intros (<- & <- & _). eauto.
  - intros [r ->]. reflexivity.
Qed.

Lemma app_cons c s t : String c s +:+ t = String c (s +:+ t).
Proof. reflexivity. Qed.

Lemma app_empty_l s : "" +:+ s = s.
Proof. reflexivity. Qed.

Lemma split_go_nonempty sep skip s : split_go sep skip s ≠ [].
Proof.
  revert skip. induction s as [|c r IH]; intros skip; cbn [split_go]; [done|].
  destruct skip; [|apply IH].
  destruct (startswith (String c r) sep); [done|].
  specialize (IH 0). destruct (split_go sep 0 r); done.
Qed.

Lemma split_nil sep : split sep "" = [""].
Proof. reflexivity. Qed.

Lemma split_sep r : split ", " (String "," (String " " r)) = "" :: split ", " r.
Proof. reflexivity. Qed.

Lemma split_other c r :
  startswith (String c r) ", " = false →
  split ", " (String c r) = cons_head c (split ", " r).
Proof. unfold split. cbn [split_go]. by intros ->. Qed.

Lemma cons_head_app c l k : l ≠ [] → cons_head c (l ++ k) = cons_head c l ++ k.
Proof. by destruct l. Qed.

Lemma startswith_app_sep c A B :
  startswith (String c A) ", " = false →
  startswith (String c (A +:+ ", " +:+ B)) ", " = false.
Proof.
  rewrite <-!not_true_iff_false, !startswith_sep.
  intros Hn [r Hr]. apply Hn. injection Hr as -> Hr.
  destruct A as [|d A]; [by rewrite app_empty_l, app_cons in Hr|].
  rewrite app_cons in Hr. simplify_eq. eauto.
Qed.

Lemma split_app_sep A B :
  split ", " (A +:+ ", " +:+ B) = split ", " A ++ split ", " B.
Proof.
  remember (String.length A) as n eqn:Hn.
  revert A Hn. induction (lt_wf n) as [n _ IH]; intros A ->.
  destruct A as [|c A]; [done|].
  destruct (startswith (String c A) ", ") eqn:Hp.
  - apply startswith_sep in Hp as [r [= -> ->]].
    rewrite !app_cons, !split_sep. rewrite (IH (String.length r)); [done|simpl; lia|done].
  - rewrite app_cons, !split_other by auto using startswith_app_sep.
    rewrite (IH (String.length A)); [|simpl; lia|done].
    apply cons_head_app, split_go_nonempty.
Qed.

Lemma join_cons2 sep x y l : join sep (x :: y :: l) = x +:+ sep +:+ join sep (y :: l).
Proof. reflexivity. Qed.

Lemma split_join l : l ≠ [] → split ", " (join ", " l) = l ≫= split ", ".
Proof.
  induction l as [|x l IH]; [done|]. intros _. destruct l as [|y l].
  - cbn. by rewrite app_nil_r.
  - rewrite join_cons2, split_app_sep, IH by done. reflexivity.
Qed.

Lemma split_without_sep k : contains ", " k = false → split ", " k = [k].
Proof.
  induction k as [|c r IH]; [done|].
  cbn [contains]. intros [Hp Hr]%orb_false_iff.
  by rewrite split_other, IH.
Qed.

Lemma join_eq_dash l : l ≠ [] → join ", " l = "-" ↔ l = ["-"].
Proof.
  intros Hl. split; [|by intros ->].
  destruct l as [|x [|y l]]; [done|cbn; by intros ->|].
  rewrite join_cons2.
  destruct x as [|c [|d x]]; rewrite ?app_cons, ?app_empty_l, ?app_cons; done.
Qed.

Lemma startswith_spec s pre : startswith s pre = true ↔ ∃ post, s = pre +:+ post.
Proof.
  revert s. induction pre as [|a p IH]; intros s; cbn [startswith].
  - split; [eauto|done].
  - destruct s as [|b r].
    + split; [done|]. by intros [post [=]].
    + rewrite andb_true_iff, bool_decide_eq_true, IH. split.
      * intros [-> [post ->]]. eauto.
      * intros [post Hpost]. rewrite app_cons in Hpost. simplify_eq. eauto.
Qed.

Lemma contains_spec sub s :
  contains sub s = true ↔ ∃ pre post, s = pre +:+ sub +:+ post.
Proof.
  induction s as [|c r IH]; cbn [contains].
  - rewrite orb_false_r, startswith_spec. split.
    + intros [post ->]. by exists "", post.
    + intros ([|? ?] & post & Hs); [eauto|done].
  - rewrite orb_true_iff, startswith_spec, IH. split.
    + intros [[post ->]|(pre & post & ->)].
      * by exists "", post.
      * by exists (String c pre), post.
    + intros ([|d pre] & post & Hs).
      * left. eauto.
      * right. rewrite app_cons in Hs. simplify_eq. eauto.
Qed.

End PyFacts.

(** ** Facts about stripping *)

Module StripFacts.
Import Py PyFacts.

Lemma whitespace_nonempty (w : string) : w ∈ whitespace → w ≠ "".
Proof.
  assert (Forall (λ w, w ≠ "") whitespace) as Hall by (by repeat constructor).
  rewrite Forall_forall in Hall. apply Hall.
Qed.

Lemma first_prefix_Some (s w : string) (candidates : list string) :
  first_prefix s candidates = Some w → w ∈ candidates ∧ ∃ r, s = w +:+ r.
Proof.
  induction candidates as [|w' rest IH]; [done|]. cbn [first_prefix].
  destruct (startswith s w') eqn:Hw'.
  - intros [= <-]. split; [left|]. by apply startswith_spec.
  - intros [? ?]%IH. split; [by right|done].
Qed.

Lemma first_prefix_None (s : string) (candidates : list string) :
  first_prefix s candidates = None ↔ ∀ w r, w ∈ candidates → s ≠ w +:+ r.
Proof.
  induction candidates as [|w' rest IH]; cbn [first_prefix].
  - split; [|done]. by intros _ w r ?%elem_of_nil.
  - destruct (startswith s w') eqn:Hw'.
    + split; [done|]. intros Hno. apply startswith_spec in Hw' as [r ->].
      by destruct (Hno w' r); [left|].
    + rewrite IH. split.
      * intros Hno w r [->|?]%elem_of_cons; [|by apply Hno].
        intros ->. apply not_true_iff_false in Hw'. apply Hw'.
        apply startswith_spec. by exists r.
      * intros Hno w r ?. apply Hno. by right.
Qed.

Lemma app_length (u v : string) : String.length (u +:+ v) = String.length u + String.length v.
Proof. induction u as [|c u IH]; [done|]. rewrite app_cons. cbn. by rewrite IH. Qed.

Lemma lstrip_go_skip (u r : string) : lstrip_go (String.length u) (u +:+ r) = lstrip r.
Proof.
  induction u as [|c u IH]; [done|]. rewrite app_cons. cbn [String.length lstrip_go].
  apply IH.
Qed.

Lemma blank_go_skip (u r : string) : blank_go (String.length u) (u +:+ r) = blank r.
Proof.
  induction u as [|c u IH]; [done|]. rewrite app_cons. cbn [String.length blank_go].
  apply IH.
Qed.

(** How [lstrip] and [blank] go on after a look at the front. *)
Lemma lstrip_space (s w : string) :
  leading_space s = Some w → ∃ r, s = w +:+ r ∧ lstrip s = lstrip r.
Proof.
  intros Hw. destruct (first_prefix_Some s w whitespace Hw) as [Hin [r ->]].
  exists r. split; [done|].
  destruct w as [|c w]; [by apply whitespace_nonempty in Hin|].
  rewrite app_cons in *. unfold lstrip at 1. cbn [lstrip_go].
  rewrite Hw. replace (String.length (String c w) - 1) with (String.length w) by (cbn; lia).
  apply lstrip_go_skip.
Qed.

Lemma lstrip_no_space (s : string) : leading_space s = None → lstrip s = s.
Proof. destruct s as [|c r]; [done|]. unfold lstrip. cbn [lstrip_go]. by intros ->. Qed.

Lemma blank_space (s w : string) :
  leading_space s = Some w → ∃ r, s = w +:+ r ∧ blank s = blank r.
Proof.
  intros Hw. destruct (first_prefix_Some s w whitespace Hw) as [Hin [r ->]].
  exists r. split; [done|].
  destruct w as [|c w]; [by apply whitespace_nonempty in Hin|].
  rewrite app_cons in *. unfold blank at 1. cbn [blank_go].
  rewrite Hw. replace (String.length (String c w) - 1) with (String.length w) by (cbn; lia).
  apply blank_go_skip.
Qed.

Lemma blank_no_space (s : string) : leading_space s = None → blank s = true → s = "".
Proof. destruct s as [|c r]; [done|]. unfold blank. cbn [blank_go]. by intros ->. Qed.


Lemma app_assoc (u v t : string) : (u +:+ v) +:+ t = u +:+ (v +:+ t).
Proof. induction u as [|c u IH]; [done|]. by rewrite !app_cons, IH. Qed.

Lemma app_empty_r (u : string) : u +:+ "" = u.
Proof. induction u as [|c u IH]; [done|]. by rewrite app_cons, IH. Qed.

(** Two strings that start one and the same string: one starts the other. *)
Lemma app_comparable (u a v b : string) :
  u +:+ a = v +:+ b → (∃ x, u = v +:+ x) ∨ (∃ y, y ≠ "" ∧ v = u +:+ y).
Proof.
  revert v. induction u as [|c u IH]; intros v Huv.
  - destruct v as [|d v]; [left; by exists ""|]. right. by exists (String d v).
  - destruct v as [|d v]; [left; by exists (String c u)|].
    rewrite !app_cons in Huv. injection Huv as -> Huv.
    destruct (IH v Huv) as [[x ->]|(y & ? & ->)]; [left; by exists x|right; by exists y].
Qed.

Lemma whitespace_prefix_free (w w' x : string) :
  w ∈ whitespace → w' ∈ whitespace → w = w' +:+ x → x = "".
Proof.
  assert (forallb (λ w, forallb (λ w', implb (startswith w w') (bool_decide (w = w')))
                          whitespace) whitespace = true) as Hfree
    by (vm_compute; reflexivity).
  intros Hw Hw' Hx.
  rewrite forallb_forall in Hfree. apply list_elem_of_In, Hfree in Hw.
  rewrite forallb_forall in Hw. apply list_elem_of_In, Hw in Hw'.
  assert (startswith w w' = true) as Hs by (apply startswith_spec; by exists x).
  rewrite Hs in Hw'. cbn in Hw'. apply bool_decide_eq_true in Hw'.
  rewrite Hw' in Hx at 1. rewrite <-(app_empty_r w') in Hx at 1.
  by apply (inj (String.app w')) in Hx.
Qed.

Lemma whitespace_is_first (c : ascii) (w : string) :
  String c w ∈ whitespace → is_first c = true.
Proof.
  intros Hin. unfold is_first. apply existsb_exists. exists (String c w).
  split; [by apply list_elem_of_In|]. by apply bool_decide_eq_true.
Qed.

Lemma whitespace_inner (k y : string) (d : ascii) :
  k +:+ String d y ∈ whitespace → k ≠ "" → is_first d = false.
Proof.
  assert (forallb (λ w, match w with
                        | "" => true
                        | String _ rest =>
                            forallb (λ c, negb (is_first c)) (String.list_ascii_of_string rest)
                        end) whitespace = true) as Hinner
    by (vm_compute; reflexivity).
  intros Hin Hk. rewrite forallb_forall in Hinner.
  apply list_elem_of_In, Hinner in Hin.
  destruct k as [|c k]; [done|]. rewrite app_cons in Hin.
  rewrite forallb_forall in Hin. apply negb_true_iff, Hin.
  clear. induction k as [|c k IH]; [by left|]. by right.
Qed.

Lemma Blank_inv (s : string) :
  Blank s → s = "" ∨ ∃ w s', w ∈ whitespace ∧ Blank s' ∧ s = w +:+ s'.
Proof. intros [|w s' ? ?]; [by left|right; by exists w, s']. Qed.

(** A proper end of a character does not start a run of white space. *)
Lemma whitespace_cut (w k y r : string) :
  w ∈ whitespace → w = k +:+ y → k ≠ "" → y ≠ "" → ¬ Blank (y +:+ r).
Proof.
  intros Hw -> Hk Hy Hblank. destruct y as [|d y]; [done|].
  pose proof (whitespace_inner k y d Hw Hk) as Hd.
  apply Blank_inv in Hblank as [?|(w2 & s2 & Hw2 & _ & Heq)]; [done|].
  destruct w2 as [|e w2]; [by apply whitespace_nonempty in Hw2|].
  rewrite !app_cons in Heq. injection Heq as -> _.
  apply whitespace_is_first in Hw2. congruence.
Qed.


Lemma leading_space_of_space (w r : string) :
  w ∈ whitespace → leading_space (w +:+ r) = Some w.
Proof.
  intros Hw. destruct (leading_space (w +:+ r)) as [w'|] eqn:Hlead.
  - apply first_prefix_Some in Hlead as [Hw' [r' Heq]]. f_equal.
    apply app_comparable in Heq as [[x Hx]|(y & _ & Hy)].
    + rewrite (whitespace_prefix_free w w' x Hw Hw' Hx) in Hx. by rewrite app_empty_r in Hx.
    + rewrite (whitespace_prefix_free w' w y Hw' Hw Hy) in Hy. by rewrite app_empty_r in Hy.
  - exfalso. by eapply first_prefix_None in Hlead.
Qed.

Lemma lstrip_Blank (ws r : string) : Blank ws → lstrip (ws +:+ r) = lstrip r.
Proof.
  induction 1 as [|w s Hw _ IH]; [done|]. rewrite app_assoc.
  destruct (lstrip_space _ w (leading_space_of_space w (s +:+ r) Hw)) as (r' & Heq & ->).
  apply (inj (String.app w)) in Heq as <-. apply IH.
Qed.

Lemma blank_Blank (s : string) : Blank s → blank s = true.
Proof.
  induction 1 as [|w s Hw _ IH]; [done|].
  destruct (blank_space _ w (leading_space_of_space w s Hw)) as (r' & Heq & ->).
  by apply (inj (String.app w)) in Heq as <-.
Qed.

Lemma Blank_blank (s : string) : blank s = true → Blank s.
Proof.
  remember (String.length s) as n eqn:Hn. revert s Hn.
  induction (lt_wf n) as [n _ IH]; intros s -> Hblank.
  destruct (leading_space s) as [w|] eqn:Hlead.
  - pose proof (first_prefix_Some s w whitespace Hlead) as [Hw _].
    destruct (blank_space s w Hlead) as (r & -> & Hr). constructor; [done|].
    apply (IH (String.length r)); [|done|by rewrite <-Hr].
    rewrite app_length. apply whitespace_nonempty in Hw. destruct w; [done|cbn; lia].
  - rewrite (blank_no_space s Hlead Hblank). constructor.
Qed.

Lemma Blank_app (u v : string) : Blank u → Blank v → Blank (u +:+ v).
Proof.
  induction 1 as [|w s Hw _ IH]; [done|]. intros Hv. rewrite app_assoc.
  constructor; [done|by apply IH].
Qed.

(** [lstrip] cuts white space only, and all of it. *)
Lemma lstrip_spec (s : string) :
  ∃ ws, Blank ws ∧ s = ws +:+ lstrip s ∧ leading_space (lstrip s) = None.
Proof.
  remember (String.length s) as n eqn:Hn. revert s Hn.
  induction (lt_wf n) as [n _ IH]; intros s ->.
  destruct (leading_space s) as [w|] eqn:Hlead.
  - pose proof (first_prefix_Some s w whitespace Hlead) as [Hw _].
    destruct (lstrip_space s w Hlead) as (r & -> & ->).
    destruct (IH (String.length r)) with (s := r) as (ws & Hws & Hr & Hclean); [|done|].
    { rewrite app_length. apply whitespace_nonempty in Hw. destruct w; [done|cbn; lia]. }
    exists (w +:+ ws). split; [by constructor|]. split; [|done].
    by rewrite app_assoc, <-Hr.
  - exists "". rewrite (lstrip_no_space s Hlead). by repeat split; [constructor|..].
Qed.

(** [rstrip] cuts white space only, and all of it. *)
Lemma rstrip_spec (s : string) :
  ∃ ws, Blank ws ∧ s = rstrip s +:+ ws
        ∧ ∀ w front, w ∈ whitespace → rstrip s ≠ front +:+ w.
Proof.
  induction s as [|c r (ws & Hws & Hr & Hend)].
  - exists "". split; [constructor|]. split; [done|].
    intros w front Hw Heq. apply whitespace_nonempty in Hw.
    destruct front; [by rewrite app_empty_l in Heq|done].
  - cbn [rstrip]. destruct (blank (String c r)) eqn:Hblank.
    + exists (String c r). split; [by apply Blank_blank|]. split; [done|].
      intros w front Hw Heq. apply whitespace_nonempty in Hw.
      destruct front; [by rewrite app_empty_l in Heq|done].
    + exists ws. split; [done|]. split; [by rewrite app_cons, <-Hr|].
      intros w front Hw Heq. destruct front as [|d front].
      * rewrite app_empty_l in Heq. apply not_true_iff_false in Hblank. apply Hblank.
        apply blank_Blank. rewrite Hr, <-app_cons, Heq. by constructor.
      * rewrite app_cons in Heq. injection Heq as _ Heq. by eapply Hend.
Qed.


(** What [strip] returns is the token trimmed. *)
Lemma strip_trimmed (token : string) : trimmed token (strip token).
Proof.
  unfold strip.
  destruct (lstrip_spec token) as (before & Hbefore & Htoken & Hclean).
  destruct (rstrip_spec (lstrip token)) as (after & Hafter & Hl & Hend).
  split; [|split; [|done]].
  - exists before, after. split; [done|]. split; [done|]. by rewrite <-Hl.
  - intros w rest Hw Heq. rewrite Hl, Heq, app_assoc in Hclean.
    by rewrite leading_space_of_space in Hclean.
Qed.

Lemma Blank_ends_with_space (s : string) :
  Blank s → s ≠ "" → ∃ front w, w ∈ whitespace ∧ s = front +:+ w.
Proof.
  induction 1 as [|w s Hw Hs IH]; [done|]. intros _.
  destruct s as [|c s].
  - exists "", w. by rewrite app_empty_r.
  - destruct IH as (front & w' & Hw' & ->); [done|].
    exists (w +:+ front), w'. by rewrite app_assoc.
Qed.

(** White space followed by white space: the front is white space. *)
Lemma Blank_front (k after : string) : Blank (k +:+ after) → Blank after → Blank k.
Proof.
  remember (String.length k) as n eqn:Hn. revert k Hn.
  induction (lt_wf n) as [n _ IH]; intros k -> Hall Hafter.
  destruct k as [|c k]; [constructor|].
  apply Blank_inv in Hall as [?|(w & s' & Hw & Hs' & Heq)]; [done|].
  apply app_comparable in Heq as Hcmp. destruct Hcmp as [[x Hx]|(y & Hy & Hwk)].
  - rewrite Hx. constructor; [done|].
    rewrite Hx, app_assoc in Heq. apply (inj (String.app w)) in Heq.
    apply (IH (String.length x)); [|done|by rewrite Heq|done].
    rewrite Hx, app_length. apply whitespace_nonempty in Hw. destruct w; [done|cbn; lia].
  - exfalso. rewrite Hwk, app_assoc in Heq. apply (inj (String.app _)) in Heq.
    apply (whitespace_cut w (String c k) y s' Hw Hwk); [done..|]. by rewrite <-Heq.
Qed.

Lemma clean_front (k after : string) :
  k ≠ "" → (∀ w rest, w ∈ whitespace → k ≠ w +:+ rest) → Blank after →
  leading_space (k +:+ after) = None.
Proof.
  intros Hk Hclean Hafter. apply first_prefix_None. intros w r Hw Heq.
  apply app_comparable in Heq as Hcmp. destruct Hcmp as [[x Hx]|(y & Hy & Hwk)].
  - by eapply Hclean.
  - rewrite Hwk, app_assoc in Heq. apply (inj (String.app _)) in Heq.
    apply (whitespace_cut w k y r Hw Hwk); [done..|]. by rewrite <-Heq.
Qed.

Lemma rstrip_clean (k after : string) :
  (∀ w front, w ∈ whitespace → k ≠ front +:+ w) → Blank after →
  rstrip (k +:+ after) = k.
Proof.
  intros Hend Hafter. induction k as [|c k IH].
  - rewrite app_empty_l. destruct after as [|c r]; [done|].
    cbn [rstrip]. by rewrite blank_Blank.
  - rewrite app_cons. cbn [rstrip]. rewrite <-app_cons.
    destruct (blank (String c k +:+ after)) eqn:Hblank.
    + exfalso. apply Blank_blank in Hblank.
      apply (Blank_front (String c k) after) in Hblank; [|done].
      apply Blank_ends_with_space in Hblank as (front & w & Hw & Heq); [|done].
      by eapply Hend.
    + f_equal. apply IH. intros w front Hw ->. by eapply (Hend w (String c front)).
Qed.

(** A trimmed form of the token is what [strip] returns. *)
Lemma trimmed_strip (token k : string) : trimmed token k → strip token = k.
Proof.
  intros [(before & after & Hbefore & Hafter & ->) [Hstart Hend]]. unfold strip.
  rewrite lstrip_Blank by done.
  destruct (decide (k = "")) as [->|Hk].
  - rewrite app_empty_l. rewrite <-(app_empty_r after), lstrip_Blank by done. done.
  - rewrite lstrip_no_space by (by apply clean_front). by apply rstrip_clean.
Qed.

Lemma strip_iff_trimmed (token k : string) : strip token = k ↔ trimmed token k.
Proof. split; [intros <-; apply strip_trimmed|apply trimmed_strip]. Qed.

End StripFacts.

(** ** Facts about splitting on commas *)

Module ManualFacts.
Import Py PyFacts StripFacts.

Lemma contains_comma_cons (c : ascii) (r : string) :
  contains "," (String c r) = bool_decide (","%char = c) || contains "," r.
Proof. cbn [contains startswith]. by rewrite andb_true_r. Qed.

Lemma split_comma_cons (c : ascii) (r : string) :
  split "," (String c r)
  = if bool_decide (","%char = c) then "" :: split "," r else cons_head c (split "," r).
Proof. unfold split. cbn [split_go startswith]. by rewrite andb_true_r. Qed.

(** No piece of [s.split(",")] holds a comma. *)
Lemma split_comma_pieces (s : string) :
  Forall (λ piece, contains "," piece = false) (split "," s).
Proof.
  induction s as [|c r IH]; [by repeat constructor|].
  rewrite split_comma_cons. case_bool_decide as Hc.
  - by constructor.
  - destruct (split "," r) as [|h t]; cbn [cons_head].
    + constructor; [|done]. rewrite contains_comma_cons. by rewrite bool_decide_eq_false_2.
    + apply Forall_cons in IH as [Hh Ht]. constructor; [|done].
      rewrite contains_comma_cons, Hh. by rewrite bool_decide_eq_false_2.
Qed.

(** The pieces, joined with commas again, are the text. *)
Lemma join_split_comma (s : string) : join "," (split "," s) = s.
Proof.
  induction s as [|c r IH]; [done|].
  rewrite split_comma_cons. pose proof (split_go_nonempty "," 0 r) as Hne.
  fold (split "," r) in Hne. destruct (split "," r) as [|h t] eqn:Hr; [done|].
  case_bool_decide as Hc.
  - rewrite join_cons2, IH, app_empty_l. by rewrite <-Hc.
  - cbn [cons_head]. destruct t as [|h' t].
    + cbn [join] in *. by rewrite IH.
    + rewrite join_cons2 in *. by rewrite app_cons, IH.
Qed.

Lemma no_comma_no_delimiter (s : string) : contains "," s = false → contains ", " s = false.
Proof.
  intros Hs. apply not_true_iff_false. intros (pre & post & ->)%contains_spec.
  apply not_true_iff_false in Hs. apply Hs. apply contains_spec.
  by exists pre, (String " " post).
Qed.

(** What is inside a string without a comma has no comma. *)
Lemma no_comma_inside (before k after : string) :
  contains "," (before +:+ k +:+ after) = false → contains "," k = false.
Proof.
  intros Hs. apply not_true_iff_false. intros (pre & post & ->)%contains_spec.
  apply not_true_iff_false in Hs. apply Hs. apply contains_spec.
  exists (before +:+ pre), (post +:+ after). by rewrite !app_assoc.
Qed.

End ManualFacts.

(** ** The primitives on concrete strings *)

Example join_three : Py.join ", " ["a"; "b"; "c"] = "a, b, c".
Proof. reflexivity. Qed.

Example split_comma : Py.split "," "a, b, b, c" = ["a"; " b"; " b"; " c"].
Proof. reflexivity. Qed.

Example split_comma_space : Py.split ", " "a,, b, ,c, " = ["a,"; "b"; ",c"; ""].
Proof. reflexivity. Qed.

Example split_empty : Py.split ", " "" = [""].
Proof. reflexivity. Qed.

Example strip_both : Py.strip "  a b	 " = "a b".
Proof. reflexivity. Qed.

(** A no-break space (U+00A0) and an ideographic space (U+3000) are cut
    like a blank; a lone byte 160 is no character and stays. *)
Example strip_unicode :
  Py.strip (Py.of_bytes [194; 160] +:+ "a b " +:+ Py.of_bytes [227; 128; 128]) = "a b"
  ∧ Py.strip (Py.of_bytes [160] +:+ "a") = Py.of_bytes [160] +:+ "a".
Proof. split; vm_compute; reflexivity. Qed.

Example manual_keyword_list_trims :
  manual_keyword_list ("a ,a," +:+ Py.of_bytes [194; 160] +:+ "b	, ,") = ["a"; "a"; "b"].
Proof. vm_compute. reflexivity. Qed.

Example endswith_csv : Py.endswith "data.csv" ".csv" = true ∧ Py.endswith "data.CSV" ".csv" = false.
Proof. split; reflexivity. Qed.

(** ** The index: [product_map] and the processor after the loop *)

Section index_facts.
Context {KP : KeywordProcessor}.
Implicit Types (index : processor * gmap string string) (r : row).

Lemma bind_all_lookup v product_map keywords k :
  bind_all v product_map keywords !! k
  = if decide (k ∈ keywords) then Some v else product_map !! k.
Proof.
  revert product_map. induction keywords as [|k' ks IH]; intros pm; cbn.
  - by rewrite decide_False by apply not_elem_of_nil.
  - fold (bind_all v (<[k':=v]> pm) ks). rewrite IH.
    destruct (decide (k ∈ ks)) as [Hin|Hnin].
    + by rewrite decide_True by (by right).
    + destruct (decide (k = k')) as [->|Hne].
      * rewrite decide_True by left. apply lookup_insert_eq.
      * rewrite decide_False by (by intros [?|?]%elem_of_cons).
        by apply lookup_insert_ne.
Qed.

Lemma add_row_product_map key_columns prod_columns index r :
  (add_row key_columns prod_columns index r).2
  = bind_all (product_string (notnull_cells prod_columns r)) index.2
      (notnull_cells key_columns r).
Proof.
  unfold add_row, bind_all.
  generalize (product_string (notnull_cells prod_columns r)) as v.
  generalize (notnull_cells key_columns r) as ks. intros ks v.
  revert index. induction ks as [|k ks IH]; intros index; [done|].
  cbn. by rewrite IH.
Qed.

Lemma add_row_processor key_columns prod_columns index r :
  (add_row key_columns prod_columns index r).1
  = foldl (λ kp keyword, add_keyword keyword kp) index.1 (notnull_cells key_columns r).
Proof.
  unfold add_row.
  generalize (product_string (notnull_cells prod_columns r)) as v.
  generalize (notnull_cells key_columns r) as ks. intros ks v.
  revert index. induction ks as [|k ks IH]; intros index; [done|].
  cbn. by rewrite IH.
Qed.

Lemma add_row_lookup key_columns prod_columns index r k :
  (add_row key_columns prod_columns index r).2 !! k
  = if decide (k ∈ notnull_cells key_columns r)
    then Some (product_string (notnull_cells prod_columns r))
    else index.2 !! k.
Proof. by rewrite add_row_product_map, bind_all_lookup. Qed.

(** Rows that do not name [k] leave its binding alone. *)
Lemma add_rows_lookup_other key_columns prod_columns index (later : list row) k :
  (∀ r, r ∈ later → k ∉ notnull_cells key_columns r) →
  (foldl (add_row key_columns prod_columns) index later).2 !! k = index.2 !! k.
Proof.
  revert index. induction later as [|r later IH]; intros index Hlater; [done|].
  cbn. rewrite IH by (intros; apply Hlater; by right).
  rewrite add_row_lookup, decide_False; [done|]. apply Hlater. left.
Qed.

End index_facts.

(** ** C4: a keyword registered again takes the products of the later row *)

(** C4.  When a keyword is registered by several rows of [key_data], whatever
    the earlier rows bound it to, [product_map] holds for it the joined
    products of the last row that names it. *)
Theorem product_map_last_write_wins {KP : KeywordProcessor}
    (earlier later : list row) (r : row) (key_columns prod_columns : list string)
    (keyword : string) :
  keyword ∈ notnull_cells key_columns r →
  (∀ r', r' ∈ later → keyword ∉ notnull_cells key_columns r') →
  (build_index (earlier ++ r :: later) key_columns prod_columns).2 !! keyword
  = Some (product_string (notnull_cells prod_columns r)).
Proof.
  intros Hr Hlater. unfold build_index.
  rewrite foldl_app. cbn [foldl].
  rewrite add_rows_lookup_other by done.
  by rewrite add_row_lookup, decide_True.
Qed.

Lemma product_map_last_write_wins_witness :
  "milk" ∈ notnull_cells ["Keyword"] milk_oat
  ∧ (∀ r', r' ∈ [bread_bakery] → "milk" ∉ notnull_cells ["Keyword"] r')
  ∧ (@build_index substring_processor [milk_dairy; milk_oat; bread_bakery]
       ["Keyword"] ["Product"; "Other"]).2 !! "milk"
    = Some "Oat, Soy".
Proof.
  assert ("milk" ∈ notnull_cells ["Keyword"] milk_oat) as Hin by (vm_compute; left).
  assert (∀ r', r' ∈ [bread_bakery] → "milk" ∉ notnull_cells ["Keyword"] r') as Hlater.
  { intros r' ->%list_elem_of_singleton. vm_compute. by intros [=]%list_elem_of_singleton. }
  split; [exact Hin|]. split; [exact Hlater|].
  exact (product_map_last_write_wins (KP := substring_processor)
           [milk_dairy] [bread_bakery] milk_oat
           ["Keyword"] ["Product"; "Other"] "milk" Hin Hlater).
Defined.

(** ** The pieces of a joined keyword string *)

Section fragment_facts.
Import Py PyFacts.

Lemma fragments_join (l : list string) :
  l ≠ [] → fragments (join ", " l) = filter (λ k, k ≠ "") (l ≫= split ", ").
Proof. intros Hl. unfold fragments. by rewrite split_join. Qed.

Lemma elem_of_fragments_join (l : list string) (f : string) :
  l ≠ [] →
  f ∈ fragments (join ", " l) ↔ f ≠ "" ∧ ∃ k, k ∈ l ∧ f ∈ split ", " k.
Proof.
  intros Hl. rewrite fragments_join by done.
  rewrite list_elem_of_filter, list_elem_of_bind.
  split; (intros [Hf (k & ? & ?)]; split; [done|by exists k]).
Qed.

(** Keywords that are neither empty nor contain the delimiter come back
    from the joined string as they went in. *)
Lemma fragments_join_plain (l : list string) :
  l ≠ [] →
  (∀ k, k ∈ l → k ≠ "" ∧ contains ", " k = false) →
  fragments (join ", " l) = l.
Proof.
  intros Hl Hplain. rewrite fragments_join by done. clear Hl.
  induction l as [|k l IH]; [done|].
  destruct (Hplain k) as [Hk Hsep]; [left|].
  change ((k :: l) ≫= split ", ") with (split ", " k ++ (l ≫= split ", ")).
  rewrite split_without_sep by done. change ([k] ++ ?t) with (k :: t).
  rewrite filter_cons_True by done. f_equal.
  apply IH. intros k' Hk'. apply Hplain. by right.
Qed.

End fragment_facts.

(** ** One description through the pass *)

Section mapping_facts.
Context {KP : KeywordProcessor}.
Import Py PyFacts.

Lemma set_elements_nil_iff {PS : PySet} (l : list string) : set_elements l = [] ↔ l = [].
Proof.
  split; intros Hl; apply elem_of_nil_inv; intros x Hx.
  - apply (set_elements_elem l x) in Hx. rewrite Hl in Hx. by apply elem_of_nil in Hx.
  - rewrite set_elements_elem, Hl in Hx. by apply elem_of_nil in Hx.
Qed.

(** Two iterations of the same items are permutations of each other. *)
Lemma set_elements_Permutation (run1 run2 : PySet) (l : list string) :
  @set_elements run1 l ≡ₚ @set_elements run2 l.
Proof.
  apply NoDup_Permutation; [apply set_elements_NoDup..|].
  intros x. by rewrite !set_elements_elem.
Qed.


Lemma extract_keywords_some {PS : PySet} kp description :
  matched_keywords kp description ≠ [] →
  extract_keywords kp description = join ", " (matched_keywords kp description).
Proof. unfold extract_keywords. by destruct (matched_keywords kp description). Qed.

Lemma elem_of_product_strings {PS : PySet} product_map x p :
  p ∈ product_strings product_map x
  ↔ ∃ f, f ∈ fragments x ∧ p = default "-" (product_map !! f).
Proof.
  unfold product_strings. rewrite set_elements_elem, list_elem_of_fmap.
  split; intros (f & ? & ?); by exists f.
Qed.

(** The joined string is the placeholder only for the lone keyword ["-"]. *)
Lemma extract_keywords_dash {PS : PySet} kp description :
  extract_keywords kp description = "-"
  ↔ matched_keywords kp description = [] ∨ matched_keywords kp description = ["-"].
Proof.
  unfold extract_keywords. destruct (matched_keywords kp description) as [|k l] eqn:Hm.
  - split; [by left|done].
  - rewrite join_eq_dash by done. split; [by right|by intros [?|?]].
Qed.

(** What [Mapped_Product] returns once the joined string is not the
    placeholder: the products of the pieces of the matched keywords. *)
Lemma Mapped_Product_fragments {PS : PySet} kp product_map description :
  matched_keywords kp description ≠ [] →
  matched_keywords kp description ≠ ["-"] →
  Mapped_Product product_map (extract_keywords kp description)
  = join ", " (set_elements
      ((λ f, default "-" (product_map !! f))
         <$> filter (λ f, f ≠ "") (matched_keywords kp description ≫= split ", "))).
Proof.
  intros Hne Hdash. unfold Mapped_Product.
  rewrite decide_True.
  - unfold product_strings. by rewrite extract_keywords_some, fragments_join.
  - rewrite extract_keywords_dash. by intros [?|?].
Qed.

Lemma Mapped_Product_per_keyword {PS : PySet} kp product_map description :
  matched_keywords kp description ≠ [] →
  matched_keywords kp description ≠ ["-"] →
  (∀ k, k ∈ matched_keywords kp description → k ≠ "" ∧ contains ", " k = false) →
  Mapped_Product product_map (extract_keywords kp description)
  = per_keyword_products product_map (matched_keywords kp description).
Proof.
  intros Hne Hdash Hplain. unfold Mapped_Product.
  rewrite decide_True.
  - unfold product_strings, per_keyword_products.
    by rewrite extract_keywords_some, fragments_join_plain.
  - rewrite extract_keywords_dash. by intros [?|?].
Qed.

End mapping_facts.

(** ** C5: a description without a match *)




(** ** C3: the products of a record, keyword by keyword *)

(** Whatever [product_map] holds was put there by a row of [key_data]. *)
Lemma build_index_lookup_Some {KP : KeywordProcessor}
    (key_data : list row) (key_columns prod_columns : list string) (k v : string) :
  (build_index key_data key_columns prod_columns).2 !! k = Some v →
  ∃ r, r ∈ key_data ∧ k ∈ notnull_cells key_columns r
       ∧ v = product_string (notnull_cells prod_columns r).
Proof.
  unfold build_index.
  assert (∀ index,
    (foldl (add_row key_columns prod_columns) index key_data).2 !! k = Some v →
    index.2 !! k = Some v
    ∨ ∃ r, r ∈ key_data ∧ k ∈ notnull_cells key_columns r
           ∧ v = product_string (notnull_cells prod_columns r)) as Hgen.
  { induction key_data as [|r rs IH]; intros index; [by left|].
    cbn [foldl]. intros [Hhere|(r' & ? & ? & ?)]%IH.
    - rewrite add_row_lookup in Hhere. case_decide; [|by left].
      right. exists r. split; [left|]. split; [done|congruence].
    - right. exists r'. split; [by right|done]. }
  intros [Hempty|?]%Hgen; [|done]. cbn [snd] in Hempty. by rewrite lookup_empty in Hempty.
Qed.

(** C3 (as it holds).  For a record whose matched keywords are non-empty
    strings without the delimiter [", "], and are not the lone keyword ["-"],
    [Mapped_Product] is the join of the set of the strings
    [product_map.get(keyword, "-")], one whole string per matched keyword;
    and the string [product_map] holds for a keyword is the [", "]-join of
    the products of a row that registered it, or ["-"] when that row has no
    product. *)
Theorem matched_products_per_keyword {KP : KeywordProcessor} {PS : PySet}
    (key_data : list row) (key_columns prod_columns : list string)
    (kp : processor) (product_map : gmap string string) (description : string) :
  build_index key_data key_columns prod_columns = (kp, product_map) →
  matched_keywords kp description ≠ [] →
  matched_keywords kp description ≠ ["-"] →
  (∀ k, k ∈ matched_keywords kp description → k ≠ "" ∧ Py.contains ", " k = false) →
  Mapped_Product product_map (extract_keywords kp description)
  = per_keyword_products product_map (matched_keywords kp description)
  ∧ ∀ k, product_map !! k = None
         ∨ ∃ r, r ∈ key_data ∧ k ∈ notnull_cells key_columns r
                ∧ product_map !! k
                  = Some (product_string (notnull_cells prod_columns r)).
Proof.
  intros Hindex Hne Hdash Hplain. split.
  - by apply Mapped_Product_per_keyword.
  - intros k. destruct (product_map !! k) as [v|] eqn:Hk; [right|by left].
    assert ((build_index key_data key_columns prod_columns).2 !! k = Some v) as Hv
      by (by rewrite Hindex).
    apply build_index_lookup_Some in Hv as (r & ? & ? & ->).
    by exists r.
Qed.

Lemma matched_products_per_keyword_witness :
  @matched_keywords substring_processor insertion_order
    (sample_index [milk_dairy; bread_bakery]).1 "I bought milk and bread" = ["milk"; "bread"]
  ∧ @Mapped_Product insertion_order (sample_index [milk_dairy; bread_bakery]).2
      (@extract_keywords substring_processor insertion_order
         (sample_index [milk_dairy; bread_bakery]).1 "I bought milk and bread")
    = "Dairy, Bakery".
Proof.
  assert (@matched_keywords substring_processor insertion_order
            (sample_index [milk_dairy; bread_bakery]).1 "I bought milk and bread"
          = ["milk"; "bread"]) as Hmatched by reflexivity.
  split; [exact Hmatched|].
  refine (proj1 (matched_products_per_keyword
                   (KP := substring_processor) (PS := insertion_order)
                   [milk_dairy; bread_bakery] ["Keyword"] ["Product"]
                   (sample_index [milk_dairy; bread_bakery]).1
                   (sample_index [milk_dairy; bread_bakery]).2
                   "I bought milk and bread" eq_refl _ _ _)).
  - by rewrite Hmatched.
  - by rewrite Hmatched.
  - rewrite Hmatched. apply Forall_forall. by repeat constructor.
Defined.

(** The claim C3 as the specification words it fails on a keyword that
    contains the delimiter: ["a, b"] is matched and has the product ["P"],
    yet [Mapped_Product] looks up ["a"] and ["b"] and shows ["-"]. *)
Lemma per_keyword_products_fail_on_delimiter :
  @matched_keywords substring_processor insertion_order
    (sample_index [delimiter_row]).1 "buy a, b now" = ["a, b"]
  ∧ @Mapped_Product insertion_order (sample_index [delimiter_row]).2
      (@extract_keywords substring_processor insertion_order
         (sample_index [delimiter_row]).1 "buy a, b now") = "-"
  ∧ @per_keyword_products insertion_order (sample_index [delimiter_row]).2
      (@matched_keywords substring_processor insertion_order
         (sample_index [delimiter_row]).1 "buy a, b now") = "P".
Proof. repeat split; reflexivity. Qed.

(** ** C10: products are resolved from the joined keyword string *)

(** C10 (as it holds).  [Mapped_Product] reads the joined string only.  When
    that string is the placeholder ["-"], which it is for no match and for
    the keyword ["-"] matched alone, no lookup is made and the result is
    ["-"] whatever [product_map] holds.  Otherwise the products shown are
    those of the non-empty pieces that splitting every matched keyword on
    [", "] leaves, a piece that [product_map] does not hold giving ["-"]; and
    when no matched keyword is empty or contains [", "], this is the
    per-keyword lookup. *)
Theorem products_resolved_from_joined_string {KP : KeywordProcessor} {PS : PySet}
    (kp : processor) (product_map : gmap string string) (description : string) :
  (matched_keywords kp description = [] ∨ matched_keywords kp description = ["-"] →
   extract_keywords kp description = "-"
   ∧ Mapped_Product product_map (extract_keywords kp description) = "-")
  ∧ (matched_keywords kp description ≠ [] →
     matched_keywords kp description ≠ ["-"] →
     extract_keywords kp description ≠ "-"
     ∧ Mapped_Product product_map (extract_keywords kp description)
       = Py.join ", " (set_elements
           ((λ f, default "-" (product_map !! f))
              <$> filter (λ f, f ≠ "") (matched_keywords kp description ≫= Py.split ", ")))
     ∧ (∀ k f, k ∈ matched_keywords kp description → f ∈ Py.split ", " k → f ≠ "" →
          default "-" (product_map !! f)
          ∈ product_strings product_map (extract_keywords kp description))
     ∧ ((∀ k, k ∈ matched_keywords kp description → k ≠ "" ∧ Py.contains ", " k = false) →
        Mapped_Product product_map (extract_keywords kp description)
        = per_keyword_products product_map (matched_keywords kp description))).
Proof.
  split.
  - intros Hplace%extract_keywords_dash. by rewrite Hplace.
  - intros Hne Hdash. split.
    { rewrite extract_keywords_dash. by intros [?|?]. }
    split; [by apply Mapped_Product_fragments|]. split.
    + intros k f Hk Hf Hnonempty. apply elem_of_product_strings. exists f. split; [|done].
      rewrite extract_keywords_some by done.
      apply elem_of_fragments_join; [done|]. split; [done|by exists k].
    + by apply Mapped_Product_per_keyword.
Qed.

Lemma products_resolved_from_joined_string_witness :
  @matched_keywords substring_processor insertion_order
    (sample_index [milk_dairy; delimiter_row]).1 "milk, a, b" = ["milk"; "a, b"]
  ∧ @Mapped_Product insertion_order (sample_index [milk_dairy; delimiter_row]).2
      (@extract_keywords substring_processor insertion_order
         (sample_index [milk_dairy; delimiter_row]).1 "milk, a, b")
    = "Dairy, -".
Proof.
  assert (@matched_keywords substring_processor insertion_order
            (sample_index [milk_dairy; delimiter_row]).1 "milk, a, b"
          = ["milk"; "a, b"]) as Hmatched by reflexivity.
  split; [exact Hmatched|].
  refine (proj1 (proj2 (proj2 (products_resolved_from_joined_string
                                 (KP := substring_processor) (PS := insertion_order)
                                 (sample_index [milk_dairy; delimiter_row]).1
                                 (sample_index [milk_dairy; delimiter_row]).2
                                 "milk, a, b") _ _))); by rewrite Hmatched.
Defined.

(** The claim C10 as worded fails on the lone keyword ["-"]: it contains no
    [", "], it has the product ["Q"], and the joined string is the
    placeholder, so no lookup is made and [Mapped_Product] is ["-"]. *)
Lemma lone_dash_keyword_is_not_looked_up :
  @matched_keywords substring_processor insertion_order
    (sample_index [dash_row]).1 "-" = ["-"]
  ∧ Py.contains ", " "-" = false
  ∧ @Mapped_Product insertion_order (sample_index [dash_row]).2
      (@extract_keywords substring_processor insertion_order
         (sample_index [dash_row]).1 "-") = "-"
  ∧ @per_keyword_products insertion_order (sample_index [dash_row]).2
      (@matched_keywords substring_processor insertion_order
         (sample_index [dash_row]).1 "-") = "Q".
Proof. repeat split; reflexivity. Qed.

(** ** C8: two runs of the pass *)

(** C8.  Two runs over the same index and description, each with its own set
    iteration order, match the same set of keywords, agree on whether the
    record is a placeholder record, and resolve the same set of product
    strings. *)
Theorem two_runs_same_sets {KP : KeywordProcessor} (run1 run2 : PySet)
    (index : processor * gmap string string) (description : string) :
  (∀ k, k ∈ @matched_keywords KP run1 index.1 description
        ↔ k ∈ @matched_keywords KP run2 index.1 description)
  ∧ (@extract_keywords KP run1 index.1 description = "-"
     ↔ @extract_keywords KP run2 index.1 description = "-")
  ∧ (∀ p, p ∈ @product_strings run1 index.2 (@extract_keywords KP run1 index.1 description)
          ↔ p ∈ @product_strings run2 index.2 (@extract_keywords KP run2 index.1 description)).
Proof.
  pose proof (set_elements_Permutation run1 run2 (kp_extract_keywords index.1 description))
    as Hperm.
  fold (@matched_keywords KP run1 index.1 description) in Hperm.
  fold (@matched_keywords KP run2 index.1 description) in Hperm.
  split; [|split].
  - intros k. by rewrite Hperm.
  - rewrite !extract_keywords_dash.
    split; (intros [Hnil|Hdash]; [left|right]).
    + rewrite Hnil in Hperm. by apply Permutation_nil_l in Hperm.
    + rewrite Hdash in Hperm. by apply Permutation_singleton_l in Hperm.
    + rewrite Hnil in Hperm. by apply Permutation_nil_r in Hperm.
    + rewrite Hdash in Hperm. by apply Permutation_singleton_r in Hperm.
  - intros p. rewrite !elem_of_product_strings.
    destruct (@matched_keywords KP run1 index.1 description) as [|k1 m1] eqn:Hm1.
    + apply Permutation_nil_l in Hperm.
      unfold extract_keywords. by rewrite Hm1, <-Hperm.
    + assert (@matched_keywords KP run2 index.1 description ≠ []) as Hm2.
      { intros Hnil. rewrite Hnil in Hperm. by apply Permutation_nil_r in Hperm. }
      rewrite (extract_keywords_some (PS := run1)) by (by rewrite Hm1).
      rewrite (extract_keywords_some (PS := run2)) by done.
      rewrite Hm1.
      split; intros (f & Hf & ->); exists f; split; try done.
      * apply elem_of_fragments_join in Hf as [? (k & Hk & ?)]; [|done].
        apply elem_of_fragments_join; [done|]. split; [done|]. exists k.
        split; [|done]. by rewrite <-Hperm.
      * apply elem_of_fragments_join in Hf as [? (k & Hk & ?)]; [|done].
        apply elem_of_fragments_join; [done|]. split; [done|]. exists k.
        split; [|done]. by rewrite Hperm.
Qed.

(** ** C9: column concatenation *)

Section concatenate_facts.
Context {V : Type} (astype_str : V → string).
Implicit Types (r : gmap string V) (columns : list string).

Lemma dropna_all_null columns r :
  (∀ col, col ∈ columns → r !! col = None) ↔ omap (λ col, r !! col) columns = [].
Proof.
  induction columns as [|col rest IH]; cbn.
  - split; [done|]. by intros _ col ?%elem_of_nil.
  - destruct (r !! col) as [v|] eqn:Hcol.
    + split; [|done]. intros Hnull. specialize (Hnull col). rewrite Hcol in Hnull.
      discriminate Hnull. left.
    + rewrite <-IH. split.
      * intros Hnull c ?. apply Hnull. by right.
      * intros Hnull c [->|?]%elem_of_cons; [done|by apply Hnull].
Qed.

Lemma concatenate_row_null col rest r :
  r !! col = None →
  concatenate_row astype_str (col :: rest) r = concatenate_row astype_str rest r.
Proof. unfold concatenate_row. cbn. by intros ->. Qed.

Lemma concatenate_row_last col rest r v :
  r !! col = Some v → (∀ c, c ∈ rest → r !! c = None) →
  concatenate_row astype_str (col :: rest) r = astype_str v.
Proof.
  intros Hcol Hrest%dropna_all_null. unfold concatenate_row. cbn.
  by rewrite Hcol, Hrest.
Qed.

Lemma concatenate_row_more col rest r v :
  r !! col = Some v → ¬ (∀ c, c ∈ rest → r !! c = None) →
  concatenate_row astype_str (col :: rest) r
  = astype_str v +:+ " " +:+ concatenate_row astype_str rest r.
Proof.
  intros Hcol Hrest. rewrite dropna_all_null in Hrest. unfold concatenate_row. cbn.
  rewrite Hcol. by destruct (omap (λ c, r !! c) rest).
Qed.

End concatenate_facts.

(** C9.  For every frame and every list of selected columns, the cell
    [concatenate_columns] computes for a row is the single-space join of the
    selected values that are not null, each converted to a string, in the
    order of the selection (the closing [fillna] changes nothing); a row
    whose selected values are all null gets the empty string; and a null
    value contributes neither text nor a space. *)
Theorem concatenation_joins_non_null_values {V : Type} (astype_str : V → string)
    (df : list (gmap string V)) (columns : list string) :
  concatenate_columns astype_str df columns
  = (λ r, Py.join " " (astype_str <$> omap (λ col, r !! col) columns)) <$> df
  ∧ (∀ r, (∀ col, col ∈ columns → r !! col = None) →
          concatenate_row astype_str columns r = "")
  ∧ (∀ r col rest v, r !! col = Some v →
       concatenate_row astype_str (col :: rest) r
       = if decide (omap (λ c, r !! c) rest = [])
         then astype_str v
         else astype_str v +:+ " " +:+ concatenate_row astype_str rest r)
  ∧ (∀ r col rest, r !! col = None →
       concatenate_row astype_str (col :: rest) r = concatenate_row astype_str rest r).
Proof.
  split; [reflexivity|]. split; [|split].
  - intros r Hnull%dropna_all_null. unfold concatenate_row. by rewrite Hnull.
  - intros r col rest v Hcol. case_decide as Hrest.
    + apply concatenate_row_last; [done|]. by apply dropna_all_null.
    + apply concatenate_row_more; [done|]. by rewrite dropna_all_null.
  - intros r col rest. apply concatenate_row_null.
Qed.

Example concatenate_sample :
  concatenate_columns id
    [ {[ "Title" := "Fresh milk"; "Notes" := "1 l" ]};
      {[ "Notes" := "no title" ]};
      (∅ : gmap string string) ]
    ["Title"; "Missing"; "Notes"]
  = ["Fresh milk 1 l"; "no title"; ""].
Proof. reflexivity. Qed.

(** ** C6: keywords typed into the text area *)

Section manual_facts.
Context {KP : KeywordProcessor}.

Lemma manual_rows_index (keywords : list string) (index : processor * gmap string string) :
  foldl (add_row ["Keywords"] []) index ((λ kw, ({[ "Keywords" := kw ]} : row)) <$> keywords)
  = (foldl (λ kp keyword, add_keyword keyword kp) index.1 keywords,
     bind_all "-" index.2 keywords).
Proof.
  revert index. induction keywords as [|kw kws IH]; intros [kp pm]; [done|].
  cbn [fmap list_fmap foldl]. rewrite IH. unfold add_row, notnull_cells.
  cbn [omap list_omap]. by rewrite lookup_singleton_eq.
Qed.

Lemma elem_of_manual_keyword_list (manual_keywords k : string) :
  k ∈ manual_keyword_list manual_keywords
  ↔ k ≠ "" ∧ ∃ token, token ∈ Py.split "," manual_keywords ∧ trimmed token k.
Proof.
  unfold manual_keyword_list. rewrite list_elem_of_fmap. split.
  - intros (token & -> & [Hne Htoken]%list_elem_of_filter). split; [done|].
    exists token. split; [done|]. apply StripFacts.strip_trimmed.
  - intros (Hne & token & Htoken & <-%StripFacts.trimmed_strip). exists token.
    split; [done|]. by apply list_elem_of_filter.
Qed.

End manual_facts.

(** C6.  When the keywords come from the text area, the index built from them
    holds exactly the distinct non-empty trimmed tokens of the text: a
    string is a key of [product_map] exactly when it is not empty and is
    some token with the white space at its two ends cut off, each key is
    bound to ["-"], and these are the keywords added to the processor.  The
    tokens are the pieces between the commas: none holds a comma, and joined
    with commas they are the text. *)
Theorem manual_keywords_index {KP : KeywordProcessor} (manual_keywords : string)
    (key_data : list row) (key_columns prod_columns : list string) :
  manual_entry manual_keywords = Some (key_data, key_columns, prod_columns) →
  (∀ k, k ∈ dom (build_index key_data key_columns prod_columns).2
        ↔ k ≠ "" ∧ ∃ token, token ∈ Py.split "," manual_keywords ∧ trimmed token k)
  ∧ (∀ k, k ∈ dom (build_index key_data key_columns prod_columns).2 →
          (build_index key_data key_columns prod_columns).2 !! k = Some "-")
  ∧ dom (build_index key_data key_columns prod_columns).2
    = list_to_set (manual_keyword_list manual_keywords)
  ∧ (build_index key_data key_columns prod_columns).1
    = foldl (λ kp keyword, add_keyword keyword kp) new_processor
        (manual_keyword_list manual_keywords)
  ∧ Py.join "," (Py.split "," manual_keywords) = manual_keywords
  ∧ Forall (λ token, Py.contains "," token = false) (Py.split "," manual_keywords).
Proof.
  unfold manual_entry. case_decide; [|done]. intros [= <- <- <-].
  unfold build_index. rewrite manual_rows_index. cbn [fst snd].
  assert (∀ k, k ∈ dom (bind_all "-" ∅ (manual_keyword_list manual_keywords))
               ↔ k ∈ manual_keyword_list manual_keywords) as Hdom.
  { intros k. rewrite elem_of_dom, bind_all_lookup. case_decide.
    - split; [done|by eexists].
    - rewrite lookup_empty. split; [by intros [? [=]]|done]. }
  split; [|split; [|split; [|split; [|split]]]].
  - intros k. by rewrite Hdom, elem_of_manual_keyword_list.
  - intros k Hk%Hdom. by rewrite bind_all_lookup, decide_True.
  - apply set_eq. intros k. by rewrite Hdom, elem_of_list_to_set.
  - done.
  - apply ManualFacts.join_split_comma.
  - apply ManualFacts.split_comma_pieces.
Qed.

Lemma manual_keywords_index_witness :
  manual_entry "a, b, b, c"
  = Some ([ {[ "Keywords" := "a" ]}; {[ "Keywords" := "b" ]};
            {[ "Keywords" := "b" ]}; {[ "Keywords" := "c" ]} ], ["Keywords"], [])
  ∧ dom (@build_index substring_processor
           [ {[ "Keywords" := "a" ]}; {[ "Keywords" := "b" ]};
             {[ "Keywords" := "b" ]}; {[ "Keywords" := "c" ]} ] ["Keywords"] []).2
    = list_to_set ["a"; "b"; "c"].
Proof.
  assert (manual_entry "a, b, b, c"
          = Some ([ {[ "Keywords" := "a" ]}; {[ "Keywords" := "b" ]};
                    {[ "Keywords" := "b" ]}; {[ "Keywords" := "c" ]} ], ["Keywords"], []))
    as Hentry by reflexivity.
  split; [exact Hentry|].
  exact (proj1 (proj2 (proj2 (manual_keywords_index (KP := substring_processor)
                                "a, b, b, c" _ _ _ Hentry)))).
Defined.

(** ** C7: an upload that does not parse *)

Section upload_facts.
Context {PR : PandasReaders}.

(** A reader that raises: [load_data] shows the error and returns [None]. *)
Lemma load_data_reader_raises (file : UploadedFile) (err : PyException) (page : list ui_event) :
  (Py.endswith (name file) ".csv" = true ∧ read_csv (content file) = inl err)
  ∨ (Py.endswith (name file) ".csv" = false ∧ Py.endswith (name file) ".xlsx" = true
     ∧ read_excel (content file) = inl err)
  ∨ (Py.endswith (name file) ".csv" = false ∧ Py.endswith (name file) ".xlsx" = false
     ∧ Py.endswith (name file) ".json" = true ∧ read_json (content file) = inl err) →
  load_data file page
  = (inr None, page ++ [st_error ("Error reading file: " +:+ exc_text err)]).
Proof.
  unfold load_data, try_except.
  intros [[-> Hr]|[(-> & -> & Hr)|(-> & -> & -> & Hr)]]; by rewrite Hr.
Qed.

(** A name with none of the three suffixes: [None], and nothing is shown. *)
Lemma load_data_other_suffix (file : UploadedFile) (page : list ui_event) :
  Py.endswith (name file) ".csv" = false →
  Py.endswith (name file) ".xlsx" = false →
  Py.endswith (name file) ".json" = false →
  load_data file page = (inr None, page).
Proof. unfold load_data, try_except. by intros -> -> ->. Qed.

(** The keyword upload tests [key_data is not None] before it uses it. *)
Lemma key_upload_without_data (file : UploadedFile) (keys prods : list string)
    (page page' : list ui_event) :
  load_data file page = (inr None, page') →
  key_upload file keys prods page = (inr (None, [], []), page').
Proof. unfold key_upload, mbind, app_bind, bind. by intros ->. Qed.

(** The description upload calls [head] on what [load_data] returned before
    it tests it. *)
Lemma desc_upload_without_data (file : UploadedFile) (selected : list string)
    (page page' : list ui_event) :
  load_data file page = (inr None, page') →
  desc_upload (Some file) selected page
  = (inl {| exc_type := "AttributeError";
            exc_text := "'NoneType' object has no attribute 'head'" |}, page').
Proof. unfold desc_upload, mbind, app_bind, bind. by intros ->. Qed.

End upload_facts.

(** C7 on the code.  A description file whose reader raises: [load_data]
    shows the error and returns no data, as the claim says; the script then
    raises [AttributeError] at [desc_dataset.head(1000)] (line 62), which
    runs before the test [desc_dataset is not None] (line 64).  The keyword
    upload, which tests first (line 81), goes on without data. *)
Theorem failed_description_upload_raises {PR : PandasReaders}
    (file : UploadedFile) (err : PyException) (selected keys prods : list string)
    (page : list ui_event) :
  Py.endswith (name file) ".csv" = true →
  read_csv (content file) = inl err →
  load_data file page
  = (inr None, page ++ [st_error ("Error reading file: " +:+ exc_text err)])
  ∧ desc_upload (Some file) selected page
    = (inl {| exc_type := "AttributeError";
              exc_text := "'NoneType' object has no attribute 'head'" |},
       page ++ [st_error ("Error reading file: " +:+ exc_text err)])
  ∧ key_upload file keys prods page
    = (inr (None, [], []), page ++ [st_error ("Error reading file: " +:+ exc_text err)]).
Proof.
  intros Hcsv Hraise.
  assert (load_data file page
          = (inr None, page ++ [st_error ("Error reading file: " +:+ exc_text err)])) as Hload
    by (apply load_data_reader_raises; by left).
  split; [done|]. split.
  - by apply desc_upload_without_data.
  - by apply key_upload_without_data.
Qed.

Lemma failed_description_upload_raises_witness :
  Py.endswith (name empty_csv) ".csv" = true
  ∧ @desc_upload unreadable (Some empty_csv) ["Title"] []
    = (inl {| exc_type := "AttributeError";
              exc_text := "'NoneType' object has no attribute 'head'" |},
       [st_error "Error reading file: No columns to parse from file"]).
Proof.
  split; [reflexivity|].
  exact (proj1 (proj2 (failed_description_upload_raises (PR := unreadable)
                         empty_csv _ ["Title"] [] [] [] eq_refl eq_refl))).
Defined.

(** ** The script on sample uploads *)

Example desc_upload_sample :
  @desc_upload two_rows (Some empty_csv) ["Title"; "Notes"] []
  = (inr (Some {| columns := ["Title"; "Notes"; "Concatenated_Description"];
                  rows := [ {[ "Title" := "Fresh milk"; "Notes" := "1 l";
                               "Concatenated_Description" := "Fresh milk 1 l" ]};
                            {[ "Title" := "Rye bread"; "Notes" := "-";
                               "Concatenated_Description" := "Rye bread -" ]} ] |},
          ["Title"; "Notes"]),
     [ st_dataframe {| columns := ["Title"; "Notes"];
                       rows := [ {[ "Title" := "Fresh milk"; "Notes" := "1 l" ]};
                                 {[ "Title" := "Rye bread"; "Notes" := "-" ]} ] |};
       st_warning "Preview limited to the first 1000 rows.";
       st_multiselect "📌 Select Description Columns" ["Title"; "Notes"] ]).
Proof. vm_compute. reflexivity. Qed.

Example load_data_upper_case_suffix :
  @load_data two_rows {| name := "DATA.CSV"; content := "" |} [] = (inr None, []).
Proof. reflexivity. Qed.

(** Two runs may join in different orders; the sets are the same. *)
Example two_runs_sample :
  @start_mapping substring_processor insertion_order
    [milk_dairy; bread_bakery] ["Keyword"] ["Product"] ["I bought milk and bread"]
  = [("milk, bread", "Dairy, Bakery")]
  ∧ @start_mapping substring_processor reverse_order
      [milk_dairy; bread_bakery] ["Keyword"] ["Product"] ["I bought milk and bread"]
    = [("bread, milk", "Dairy, Bakery")].
Proof. split; reflexivity. Qed.

Example mapping_sample :
  @start_mapping substring_processor insertion_order
    [milk_dairy; bread_bakery] ["Keyword"] ["Product"]
    ["I bought milk and bread"; "tea and coffee"]
  = [("milk, bread", "Dairy, Bakery"); ("-", "-")].
Proof. reflexivity. Qed.

(** Products are deduplicated as whole strings: ["Dairy"] is shown twice,
    once inside the string of [milk] and once as the string of [cheese]. *)
Example whole_strings_are_deduplicated :
  @start_mapping substring_processor insertion_order
    [ {[ "Keyword" := "milk"; "Product" := "Dairy"; "Other" := "Fresh" ]};
      {[ "Keyword" := "cheese"; "Product" := "Dairy" ]};
      {[ "Keyword" := "curd"; "Product" := "Dairy" ]} ]
    ["Keyword"] ["Product"; "Other"]
    ["milk, cheese and curd"]
  = [("milk, cheese, curd", "Dairy, Fresh, Dairy")].
Proof. reflexivity. Qed.

Example manual_sample :
  (@build_index substring_processor
     ((λ kw, ({[ "Keywords" := kw ]} : row)) <$> manual_keyword_list "a, b, ,b , c,")
     ["Keywords"] []).2
  = {[ "a" := "-"; "b" := "-"; "c" := "-" ]}.
Proof. vm_compute. reflexivity. Qed.

(** ** A loaded frame has no null cell *)

Section fillna_facts.

Lemma fill_cell_lookup (v c col : string) (m : row) :
  match m !! c with
  | None => <[c := v]> m
  | Some _ => m
  end !! col
  = match m !! col with
    | Some cell => Some cell
    | None => if decide (col = c) then Some v else None
    end.
Proof.
  destruct (m !! c) as [cell|] eqn:Hc.
  - destruct (m !! col) eqn:Hcol; [done|]. case_decide; [|done]. congruence.
  - destruct (decide (col = c)) as [->|Hne].
    + by rewrite lookup_insert_eq, Hc.
    + rewrite lookup_insert_ne by done. by destruct (m !! col).
Qed.

(** One row through [fillna]: the columns of the frame are filled in, the
    cells that were there stay. *)
Lemma fill_row_lookup (v : string) (cols : list string) (r : row) (col : string) :
  foldr (λ c r', match r' !! c with
                 | None => <[c := v]> r'
                 | Some _ => r'
                 end) r cols !! col
  = match r !! col with
    | Some cell => Some cell
    | None => if decide (col ∈ cols) then Some v else None
    end.
Proof.
  induction cols as [|c cols IH]; cbn [foldr].
  - rewrite decide_False by apply not_elem_of_nil. by destruct (r !! col).
  - rewrite fill_cell_lookup, IH. destruct (r !! col); [done|].
    destruct (decide (col ∈ cols)) as [Hin|Hnin].
    + by rewrite decide_True by (by right).
    + destruct (decide (col = c)) as [->|Hne].
      * by rewrite decide_True by left.
      * by rewrite decide_False by (by intros [?|?]%elem_of_cons).
Qed.

Lemma fillna_rows (v : string) (df : DataFrame) (i : nat) (r' : row) :
  rows (fillna v df) !! i = Some r' ↔
  ∃ r, rows df !! i = Some r
       ∧ r' = foldr (λ c r', match r' !! c with
                             | None => <[c := v]> r'
                             | Some _ => r'
                             end) r (columns df).
Proof.
  unfold fillna. cbn [rows]. rewrite list_lookup_fmap.
  destruct (rows df !! i) as [r|]; cbn.
  - split; [intros [= <-]; by exists r|by intros (? & [= <-] & ->)].
  - split; [done|by intros (? & [=] & _)].
Qed.

End fillna_facts.

Lemma load_data_parses {PR : PandasReaders} (file : UploadedFile) (df : DataFrame)
    (page : list ui_event) :
  parses_to file df → load_data file page = (inr (Some (fillna "-" df)), page).
Proof.
  unfold parses_to, load_data, try_except.
  intros [[-> Hr]|[(-> & -> & Hr)|(-> & -> & -> & Hr)]]; by rewrite Hr.
Qed.

(** X1.  When the reader that the suffix selects returns a frame,
    [load_data] shows nothing and returns that frame with the same columns
    and as many rows, in which no cell of any column is null: a cell that was
    there is unchanged and a null cell of a column has become ["-"]. *)
Theorem loaded_frame_has_no_null {PR : PandasReaders} (file : UploadedFile)
    (df : DataFrame) (page : list ui_event) :
  parses_to file df →
  ∃ loaded,
    load_data file page = (inr (Some loaded), page)
    ∧ columns loaded = columns df
    ∧ length (rows loaded) = length (rows df)
    ∧ (∀ r' col, r' ∈ rows loaded → col ∈ columns loaded → is_Some (r' !! col))
    ∧ (∀ i r', rows loaded !! i = Some r' →
         ∃ r, rows df !! i = Some r
              ∧ (∀ col cell, r !! col = Some cell → r' !! col = Some cell)
              ∧ (∀ col, col ∈ columns df → r !! col = None → r' !! col = Some "-")).
Proof.
  intros Hparse. exists (fillna "-" df).
  split; [by apply load_data_parses|]. split; [done|].
  split; [unfold fillna; cbn [rows]; by rewrite length_fmap|]. split.
  - intros r' col [i Hi]%list_elem_of_lookup Hcol.
    apply fillna_rows in Hi as (r & _ & ->). rewrite fill_row_lookup.
    destruct (r !! col); [by eexists|]. rewrite decide_True by done. by eexists.
  - intros i r' (r & Hr & ->)%fillna_rows. exists r. split; [done|]. split.
    + intros col cell Hcell. by rewrite fill_row_lookup, Hcell.
    + intros col Hcol Hnull. by rewrite fill_row_lookup, Hnull, decide_True.
Qed.

Lemma loaded_frame_has_no_null_witness :
  @parses_to two_rows empty_csv
    {| columns := ["Title"; "Notes"];
       rows := [ {[ "Title" := "Fresh milk"; "Notes" := "1 l" ]};
                 {[ "Title" := "Rye bread" ]} ] |}
  ∧ ∃ loaded,
      @load_data two_rows empty_csv [] = (inr (Some loaded), [])
      ∧ columns loaded = ["Title"; "Notes"]
      ∧ length (rows loaded) = 2.
Proof.
  assert (@parses_to two_rows empty_csv
            {| columns := ["Title"; "Notes"];
               rows := [ {[ "Title" := "Fresh milk"; "Notes" := "1 l" ]};
                         {[ "Title" := "Rye bread" ]} ] |}) as Hparse
    by (left; split; reflexivity).
  split; [exact Hparse|].
  destruct (loaded_frame_has_no_null (PR := two_rows) empty_csv _ [] Hparse)
    as (loaded & Hload & Hcols & Hlen & _).
  exists loaded. split; [exact Hload|]. split; [exact Hcols|exact Hlen].
Defined.

(** ** What an index and a description are made of after loading *)

(** In a row of a loaded frame every selected column of the frame has a
    cell, so nothing is dropped as null. *)
Lemma filled_row_cells (v : string) (cols selected : list string) (r : row) :
  selected ⊆ cols →
  omap (λ col, foldr (λ c r', match r' !! c with
                              | None => <[c := v]> r'
                              | Some _ => r'
                              end) r cols !! col) selected
  = (λ col, default v (r !! col)) <$> selected.
Proof.
  intros Hsub. induction selected as [|col rest IH]; [done|].
  cbn [omap list_omap fmap list_fmap]. rewrite fill_row_lookup.
  rewrite IH by (intros c ?; apply Hsub; by right).
  destruct (r !! col); [done|]. rewrite decide_True; [done|]. apply Hsub. left.
Qed.

Section index_keys.
Context {KP : KeywordProcessor}.

Lemma add_rows_processor (key_columns prod_columns : list string)
    (index : processor * gmap string string) (key_data : list row) :
  (foldl (add_row key_columns prod_columns) index key_data).1
  = foldl (λ kp keyword, add_keyword keyword kp) index.1
      (key_data ≫= notnull_cells key_columns).
Proof.
  revert index. induction key_data as [|r rs IH]; intros index; [done|].
  cbn [foldl]. rewrite IH, add_row_processor.
  change ((r :: rs) ≫= notnull_cells key_columns)
    with (notnull_cells key_columns r ++ (rs ≫= notnull_cells key_columns)).
  by rewrite foldl_app.
Qed.

Lemma add_rows_is_Some (key_columns prod_columns : list string)
    (index : processor * gmap string string) (key_data : list row) (k : string) :
  is_Some ((foldl (add_row key_columns prod_columns) index key_data).2 !! k)
  ↔ is_Some (index.2 !! k) ∨ k ∈ key_data ≫= notnull_cells key_columns.
Proof.
  revert index. induction key_data as [|r rs IH]; intros index.
  - cbn. split; [by left|]. intros [?|?%elem_of_nil]; done.
  - cbn [foldl]. rewrite IH, add_row_lookup.
    change ((r :: rs) ≫= notnull_cells key_columns)
      with (notnull_cells key_columns r ++ (rs ≫= notnull_cells key_columns)).
    rewrite elem_of_app. case_decide as Hk.
    + split; [|by left; eexists]. intros [_|?]; right; [by left|by right].
    + split; [intros [?|?]; [by left|by right; right]|].
      intros [?|[?|?]]; [by left|done|by right].
Qed.

End index_keys.

(** X2.  [product_map] and the processor know the same keywords: the
    processor has been given, in row order and column order, every non-null
    keyword cell of [key_data] (repeats included), and the keys of
    [product_map] are exactly these cells. *)
Theorem index_keys_are_the_added_keywords {KP : KeywordProcessor}
    (key_data : list row) (key_columns prod_columns : list string) :
  (build_index key_data key_columns prod_columns).1
  = foldl (λ kp keyword, add_keyword keyword kp) new_processor
      (key_data ≫= notnull_cells key_columns)
  ∧ dom (build_index key_data key_columns prod_columns).2
    = list_to_set (key_data ≫= notnull_cells key_columns).
Proof.
  unfold build_index. split; [apply add_rows_processor|].
  apply set_eq. intros k.
  rewrite elem_of_dom, add_rows_is_Some, elem_of_list_to_set. cbn [snd].
  rewrite lookup_empty. split; [intros [[? [=]]|?]; done|by right].
Qed.

Lemma loaded_row_cells (df : DataFrame) (selected : list string) (i : nat) (r' : row) :
  selected ⊆ columns df → rows (fillna "-" df) !! i = Some r' →
  ∃ r, rows df !! i = Some r
       ∧ notnull_cells selected r' = (λ col, default "-" (r !! col)) <$> selected.
Proof.
  intros Hsub (r & Hr & ->)%fillna_rows. exists r.
  split; [done|]. by apply filled_row_cells.
Qed.

(** X3.  In a keyword file that has been loaded, a keyword cell left empty
    is not skipped by the null test of line 102: it has become ["-"], and
    ["-"] is registered as a keyword with an entry in [product_map]. *)
Theorem blank_keyword_cell_registers_dash {KP : KeywordProcessor}
    (df : DataFrame) (key_columns prod_columns : list string) (r : row) (col : string) :
  r ∈ rows df → col ∈ key_columns → col ∈ columns df → r !! col = None →
  "-" ∈ rows (fillna "-" df) ≫= notnull_cells key_columns
  ∧ is_Some ((build_index (rows (fillna "-" df)) key_columns prod_columns).2 !! "-").
Proof.
  intros [i Hi]%list_elem_of_lookup Hkey Hcol Hnull.
  assert ("-" ∈ rows (fillna "-" df) ≫= notnull_cells key_columns) as Hdash.
  { apply list_elem_of_bind.
    exists (foldr (λ c r', match r' !! c with
                           | None => <[c := "-"]> r'
                           | Some _ => r'
                           end) r (columns df)).
    split.
    - apply list_elem_of_omap. exists col. split; [done|].
      by rewrite fill_row_lookup, Hnull, decide_True.
    - apply list_elem_of_lookup. exists i. apply fillna_rows. by exists r. }
  split; [done|]. unfold build_index. apply add_rows_is_Some. by right.
Qed.

Lemma blank_keyword_cell_registers_dash_witness :
  ({[ "Product" := "Dairy" ]} : row)
    ∈ rows {| columns := ["Keyword"; "Product"];
              rows := [ milk_dairy; {[ "Product" := "Dairy" ]} ] |}
  ∧ is_Some ((@build_index substring_processor
       (rows (fillna "-" {| columns := ["Keyword"; "Product"];
                            rows := [ milk_dairy; {[ "Product" := "Dairy" ]} ] |}))
       ["Keyword"] ["Product"]).2 !! "-").
Proof.
  assert (({[ "Product" := "Dairy" ]} : row)
            ∈ rows {| columns := ["Keyword"; "Product"];
                      rows := [ milk_dairy; {[ "Product" := "Dairy" ]} ] |}) as Hrow
    by (right; left).
  split; [exact Hrow|].
  exact (proj2 (blank_keyword_cell_registers_dash (KP := substring_processor)
                  {| columns := ["Keyword"; "Product"];
                     rows := [ milk_dairy; {[ "Product" := "Dairy" ]} ] |}
                  ["Keyword"] ["Product"] {[ "Product" := "Dairy" ]} "Keyword"
                  Hrow ltac:(left) ltac:(left) eq_refl)).
Defined.

(** X4.  In a keyword file that has been loaded, every selected product
    column gives a piece of the product string of a row, an empty cell
    giving ["-"]; the bare ["-"] of line 106 is only reached when no product
    column is selected. *)
Theorem loaded_products_are_all_joined (df : DataFrame) (prod_columns : list string)
    (i : nat) (r' : row) :
  prod_columns ⊆ columns df → rows (fillna "-" df) !! i = Some r' →
  ∃ r, rows df !! i = Some r
       ∧ product_string (notnull_cells prod_columns r')
         = match prod_columns with
           | [] => "-"
           | _ :: _ => Py.join ", " ((λ col, default "-" (r !! col)) <$> prod_columns)
           end.
Proof.
  intros Hsub Hi. destruct (loaded_row_cells df prod_columns i r' Hsub Hi) as (r & Hr & ->).
  exists r. split; [done|]. by destruct prod_columns.
Qed.

Lemma loaded_products_are_all_joined_witness :
  rows (fillna "-" {| columns := ["Keyword"; "Product"; "Other"];
                      rows := [ {[ "Keyword" := "milk" ]} ] |}) !! 0
  = Some ({[ "Keyword" := "milk"; "Product" := "-"; "Other" := "-" ]} : row)
  ∧ ∃ r, rows {| columns := ["Keyword"; "Product"; "Other"];
                 rows := [ {[ "Keyword" := "milk" ]} ] |} !! 0 = Some r
         ∧ product_string (notnull_cells ["Product"; "Other"]
                             {[ "Keyword" := "milk"; "Product" := "-"; "Other" := "-" ]})
           = Py.join ", " ((λ col, default "-" (r !! col)) <$> ["Product"; "Other"]).
Proof.
  assert (rows (fillna "-" {| columns := ["Keyword"; "Product"; "Other"];
                              rows := [ {[ "Keyword" := "milk" ]} ] |}) !! 0
          = Some ({[ "Keyword" := "milk"; "Product" := "-"; "Other" := "-" ]} : row)) as Hrow
    by (vm_compute; reflexivity).
  split; [exact Hrow|].
  refine (loaded_products_are_all_joined
            {| columns := ["Keyword"; "Product"; "Other"];
               rows := [ {[ "Keyword" := "milk" ]} ] |}
            ["Product"; "Other"] 0 _ _ Hrow).
  intros col Hcol. by right.
Defined.

(** X5.  In a description file that has been loaded, the concatenated
    description of a row has one piece for every selected column: no cell is
    dropped as null, an empty cell shows as ["-"]. *)
Theorem loaded_description_keeps_every_column (df : DataFrame) (selected : list string)
    (i : nat) (r' : row) :
  selected ⊆ columns df → rows (fillna "-" df) !! i = Some r' →
  ∃ r, rows df !! i = Some r
       ∧ concatenate_row id selected r'
         = Py.join " " ((λ col, default "-" (r !! col)) <$> selected).
Proof.
  intros Hsub Hi. destruct (loaded_row_cells df selected i r' Hsub Hi) as (r & Hr & Hcells).
  exists r. split; [done|]. unfold concatenate_row.
  unfold notnull_cells in Hcells. by rewrite Hcells, list_fmap_id.
Qed.

Lemma loaded_description_keeps_every_column_witness :
  rows (fillna "-" {| columns := ["Title"; "Notes"];
                      rows := [ {[ "Title" := "Rye bread" ]} ] |}) !! 0
  = Some ({[ "Title" := "Rye bread"; "Notes" := "-" ]} : row)
  ∧ ∃ r, rows {| columns := ["Title"; "Notes"];
                 rows := [ {[ "Title" := "Rye bread" ]} ] |} !! 0 = Some r
         ∧ concatenate_row id ["Title"; "Notes"]
             ({[ "Title" := "Rye bread"; "Notes" := "-" ]} : row)
           = Py.join " " ((λ col, default "-" (r !! col)) <$> ["Title"; "Notes"]).
Proof.
  assert (rows (fillna "-" {| columns := ["Title"; "Notes"];
                              rows := [ {[ "Title" := "Rye bread" ]} ] |}) !! 0
          = Some ({[ "Title" := "Rye bread"; "Notes" := "-" ]} : row)) as Hrow
    by (vm_compute; reflexivity).
  split; [exact Hrow|].
  refine (loaded_description_keeps_every_column
            {| columns := ["Title"; "Notes"];
               rows := [ {[ "Title" := "Rye bread" ]} ] |}
            ["Title"; "Notes"] 0 _ _ Hrow).
  intros col Hcol. exact Hcol.
Defined.

(** ** The description upload when the file parses *)

(** X6.  When [load_data] returns a frame, the description upload does not
    raise: it shows at most the first 1000 rows, the warning and the column
    picker.  With an empty selection the frame is returned as loaded; with a
    non-empty one every row, in place, gains (or has overwritten) the cell
    [Concatenated_Description] computed from that same row, so that the test
    of line 108 will find the column. *)
Theorem description_upload_adds_the_column {PR : PandasReaders} (file : UploadedFile)
    (df : DataFrame) (selected : list string) (page page' : list ui_event) :
  load_data file page = (inr (Some df), page') →
  ∃ result,
    desc_upload (Some file) selected page
    = (inr (result, selected),
       page' ++ [ st_dataframe (head 1000 df);
                  st_warning "Preview limited to the first 1000 rows.";
                  st_multiselect "📌 Select Description Columns" (columns df) ])
    ∧ length (rows (head 1000 df)) ≤ 1000
    ∧ match selected with
      | [] => result = Some df
      | _ :: _ =>
          ∃ df', result = Some df'
                 ∧ "Concatenated_Description" ∈ columns df'
                 ∧ rows df'
                   = (λ r, <["Concatenated_Description" := concatenate_row id selected r]> r)
                       <$> rows df
      end.
Proof.
  intros Hload.
  assert (length (rows (head 1000 df)) ≤ 1000) as Hhead.
  { unfold head. cbn [rows]. rewrite length_take. lia. }
  unfold desc_upload, mbind, app_bind, bind. rewrite Hload. cbn [head_of].
  unfold mret, app_ret, ret, show. cbn -[head concatenate_columns].
  rewrite <-!(assoc_L (++)). cbn [app].
  destruct selected as [|col rest].
  - by exists (Some df).
  - eexists. split; [reflexivity|]. split; [done|]. eexists. split; [reflexivity|].
    unfold set_column. cbn [columns rows]. split.
    + case_decide; [done|]. apply elem_of_app. right. left.
    + unfold concatenate_columns, fillna_cell. cbn [default].
      by rewrite zip_with_fmap_r, zip_with_diag.
Qed.

Lemma description_upload_adds_the_column_witness :
  @load_data two_rows empty_csv []
  = (inr (Some (fillna "-" {| columns := ["Title"; "Notes"];
                               rows := [ {[ "Title" := "Fresh milk"; "Notes" := "1 l" ]};
                                         {[ "Title" := "Rye bread" ]} ] |})), [])
  ∧ ∃ result, (@desc_upload two_rows (Some empty_csv) ["Title"] []).1 = inr (result, ["Title"]).
Proof.
  assert (@load_data two_rows empty_csv []
          = (inr (Some (fillna "-" {| columns := ["Title"; "Notes"];
                                       rows := [ {[ "Title" := "Fresh milk"; "Notes" := "1 l" ]};
                                                 {[ "Title" := "Rye bread" ]} ] |})), []))
    as Hload by reflexivity.
  split; [exact Hload|].
  destruct (description_upload_adds_the_column (PR := two_rows) empty_csv _ ["Title"] [] []
              Hload) as (result & Hrun & _).
  exists result. by rewrite Hrun.
Defined.

(** ** A run without product columns *)

Lemma NoDup_all_equal (a : string) (l : list string) :
  NoDup l → l ≠ [] → (∀ y, y ∈ l → y = a) → l = [a].
Proof.
  intros Hnodup Hne Hall. destruct l as [|y [|z l]]; [done| |].
  - f_equal. apply Hall. left.
  - exfalso. apply NoDup_cons in Hnodup as [Hy _]. apply Hy.
    rewrite (Hall y) by left. rewrite (Hall z) by (right; left). left.
Qed.

(** X7.  When no product column is selected (a keyword file without product
    columns, or keywords typed into the text area), every [Mapped_Product] is
    ["-"], except that it is the empty string when the joined keyword string
    is not ["-"] and splitting it leaves no non-empty piece. *)
Theorem without_product_columns {KP : KeywordProcessor} {PS : PySet}
    (key_data : list row) (key_columns : list string) (x : string) :
  Mapped_Product (build_index key_data key_columns []).2 x
  = if decide (x ≠ "-" ∧ fragments x = []) then "" else "-".
Proof.
  assert (∀ k, default "-" ((build_index key_data key_columns []).2 !! k) = "-") as Hdash.
  { intros k. destruct (_ !! k) as [v|] eqn:Hk; [|done].
    by apply build_index_lookup_Some in Hk as (r & _ & _ & ->). }
  unfold Mapped_Product, product_strings.
  destruct (decide (x ≠ "-")) as [Hx|Hx].
  - destruct (fragments x) as [|f fs] eqn:Hfs.
    + rewrite decide_True by done. cbn [fmap list_fmap].
      assert (set_elements [] = []) as -> by by apply set_elements_nil_iff.
      done.
    + rewrite decide_False by (by intros [_ ?]).
      rewrite (NoDup_all_equal "-" (set_elements _)); [done| | |].
      * apply set_elements_NoDup.
      * by rewrite set_elements_nil_iff.
      * intros y (k & -> & _)%set_elements_elem%list_elem_of_fmap. apply Hdash.
  - by rewrite decide_False by (by intros [? _]).
Qed.

Example without_product_columns_sample :
  @start_mapping substring_processor insertion_order
    [ {[ "Keyword" := "milk" ]}; {[ "Keyword" := ", " ]} ] ["Keyword"] []
    ["fresh milk"; "tea"; "b, c"]
  = [("milk", "-"); ("-", "-"); (", ", "")].
Proof. reflexivity. Qed.

(** ** An uploaded keyword file and the text area *)

(** X8.  An uploaded keyword file takes the place of the text area even when
    it cannot be read: whatever was typed, there is no keyword data and no
    keyword column, the warning of line 92 is shown, and the guard of the
    mapping is false. *)
Theorem unreadable_keyword_file_hides_typed_keywords {PR : PandasReaders}
    (file : UploadedFile) (selected_keys selected_prods desc_columns : list string)
    (manual_keywords : string) (page page' : list ui_event) :
  load_data file page = (inr None, page') →
  ∃ key_data key_columns prod_columns,
    keyword_source (Some file) selected_keys selected_prods manual_keywords page
    = (inr (key_data, key_columns, prod_columns),
       page' ++ [st_warning "⚠️ Please provide at least one keyword column."])
    ∧ key_data = None ∧ key_columns = []
    ∧ ready_to_map desc_columns key_data key_columns = false.
Proof.
  intros Hload. exists None, [], [].
  unfold keyword_source, mbind, app_bind, bind.
  rewrite (key_upload_without_data file selected_keys selected_prods page page' Hload).
  split; [done|]. split; [done|]. split; [done|].
  unfold ready_to_map. by rewrite andb_false_r.
Qed.

Lemma unreadable_keyword_file_hides_typed_keywords_witness :
  @load_data unreadable empty_csv []
  = (inr None, [st_error "Error reading file: No columns to parse from file"])
  ∧ ∃ key_data key_columns prod_columns,
      @keyword_source unreadable (Some empty_csv) ["Keyword"] ["Product"] "milk, bread" []
      = (inr (key_data, key_columns, prod_columns),
         [ st_error "Error reading file: No columns to parse from file";
           st_warning "⚠️ Please provide at least one keyword column." ])
      ∧ key_data = None ∧ key_columns = []
      ∧ ready_to_map ["Title"] key_data key_columns = false.
Proof.
  assert (@load_data unreadable empty_csv []
          = (inr None, [st_error "Error reading file: No columns to parse from file"]))
    as Hload by reflexivity.
  split; [exact Hload|].
  exact (unreadable_keyword_file_hides_typed_keywords (PR := unreadable)
           empty_csv ["Keyword"] ["Product"] ["Title"] "milk, bread" [] _ Hload).
Defined.

Example typed_keywords_without_file :
  @keyword_source unreadable None [] [] "milk, bread" []
  = (inr (Some {| columns := ["Keywords"];
                  rows := [ {[ "Keywords" := "milk" ]}; {[ "Keywords" := "bread" ]} ] |},
          ["Keywords"], []), []).
Proof. reflexivity. Qed.

(** ** The keywords of the text area *)

(** X9.  A keyword taken from the text area is never empty, contains no
    comma (hence not the delimiter [", "] of line 113 either), and neither
    starts nor ends with a white-space character. *)
Theorem manual_keywords_are_plain (manual_keywords k : string) :
  k ∈ manual_keyword_list manual_keywords →
  k ≠ "" ∧ Py.contains "," k = false ∧ Py.contains ", " k = false
  ∧ (∀ w rest, w ∈ Py.whitespace → k ≠ w +:+ rest)
  ∧ (∀ w front, w ∈ Py.whitespace → k ≠ front +:+ w).
Proof.
  unfold manual_keyword_list.
  intros (token & -> & [Hne Htoken]%list_elem_of_filter)%list_elem_of_fmap.
  destruct (StripFacts.strip_trimmed token)
    as [(before & after & _ & _ & Heq) [Hstart Hend]].
  assert (Py.contains "," (Py.strip token) = false) as Hcomma.
  { apply (ManualFacts.no_comma_inside before _ after). rewrite <-Heq.
    pose proof (ManualFacts.split_comma_pieces manual_keywords) as Hpieces.
    rewrite Forall_forall in Hpieces. by apply Hpieces. }
  split; [done|]. split; [done|]. split; [|done].
  by apply ManualFacts.no_comma_no_delimiter.
Qed.

Lemma manual_keywords_are_plain_witness :
  "b c" ∈ manual_keyword_list (" a ,," +:+ Py.of_bytes [194; 160] +:+ "b c	, ")
  ∧ Py.contains ", " "b c" = false
  ∧ (∀ w rest, w ∈ Py.whitespace → "b c" ≠ w +:+ rest)
  ∧ (∀ w front, w ∈ Py.whitespace → "b c" ≠ front +:+ w).
Proof.
  assert ("b c" ∈ manual_keyword_list (" a ,," +:+ Py.of_bytes [194; 160] +:+ "b c	, "))
    as Hin by (vm_compute; right; left).
  split; [exact Hin|].
  exact (proj2 (proj2 (manual_keywords_are_plain _ "b c" Hin))).
Defined.

(** ** The joined keyword string *)

(** X10.  [Mapped_Keyword] is the placeholder ["-"] exactly when the
    processor reports no keyword other than ["-"]: that is, for no match and
    also for the keyword ["-"] matched alone. *)
Theorem placeholder_means_nothing_but_dash {KP : KeywordProcessor} {PS : PySet}
    (kp : processor) (description : string) :
  extract_keywords kp description = "-"
  ↔ ∀ k, k ∈ kp_extract_keywords kp description → k = "-".
Proof.
  rewrite extract_keywords_dash. unfold matched_keywords. split.
  - intros [Hnil|Hdash] k Hk; apply (set_elements_elem _ k) in Hk.
    + rewrite Hnil in Hk. by apply elem_of_nil in Hk.
    + rewrite Hdash in Hk. by apply list_elem_of_singleton in Hk.
  - intros Hall.
    destruct (set_elements (kp_extract_keywords kp description)) as [|k l] eqn:Hm;
      [by left|right].
    rewrite <-Hm. apply NoDup_all_equal.
    + apply set_elements_NoDup.
    + by rewrite Hm.
    + intros y Hy. apply Hall. by apply set_elements_elem.
Qed.

(** X11.  Splitting the joined string of line 113 on [", "] (line 118) gives
    back the joined strings, in order, whenever there is at least one and
    none contains [", "]; for an empty list the join is the empty string,
    which splits into one empty piece. *)
Theorem split_undoes_join (l : list string) :
  (l ≠ [] → (∀ k, k ∈ l → Py.contains ", " k = false) →
   Py.split ", " (Py.join ", " l) = l)
  ∧ Py.split ", " (Py.join ", " []) = [""].
Proof.
  split; [|done]. intros Hne Hplain. rewrite PyFacts.split_join by done.
  clear Hne. induction l as [|k l IH]; [done|].
  change ((k :: l) ≫= Py.split ", ") with (Py.split ", " k ++ (l ≫= Py.split ", ")).
  rewrite PyFacts.split_without_sep by (apply Hplain; left).
  cbn [app]. f_equal. apply IH. intros k' Hk'. apply Hplain. by right.
Qed.

(** ** What [load_data] can do *)

(** The three ways [load_data] can end. *)
Lemma load_data_cases {PR : PandasReaders} (file : UploadedFile)
    (page : list ui_event) :
  (∃ df, parses_to file df ∧ load_data file page = (inr (Some (fillna "-" df)), page))
  ∨ (∃ err, load_data file page
            = (inr None, page ++ [st_error ("Error reading file: " +:+ exc_text err)]))
  ∨ (Py.endswith (name file) ".csv" = false ∧ Py.endswith (name file) ".xlsx" = false
     ∧ Py.endswith (name file) ".json" = false ∧ load_data file page = (inr None, page)).
Proof.
  destruct (Py.endswith (name file) ".csv") eqn:Hcsv.
  { destruct (read_csv (content file)) as [err|df] eqn:Hr.
    - right; left. exists err. apply load_data_reader_raises. by left.
    - left. exists df. assert (parses_to file df) by (by left).
      split; [done|]. by apply load_data_parses. }
  destruct (Py.endswith (name file) ".xlsx") eqn:Hxlsx.
  { destruct (read_excel (content file)) as [err|df] eqn:Hr.
    - right; left. exists err. apply load_data_reader_raises. by right; left.
    - left. exists df. assert (parses_to file df) by (by right; left).
      split; [done|]. by apply load_data_parses. }
  destruct (Py.endswith (name file) ".json") eqn:Hjson.
  { destruct (read_json (content file)) as [err|df] eqn:Hr.
    - right; left. exists err. apply load_data_reader_raises. by right; right.
    - left. exists df. assert (parses_to file df) by (by right; right).
      split; [done|]. by apply load_data_parses. }
  right; right. repeat (split; [done|]). by apply load_data_other_suffix.
Qed.

(** X12.  [load_data] never raises, whatever the readers do, and it ends in
    exactly one of three ways.  When the reader that the suffix selects
    returns a frame, the result is that frame with its nulls filled and
    nothing is shown.  When that reader raises, the result is [None] and the
    one message shown is the text of what it raised.  When the name has none
    of the three suffixes, the result is [None] and nothing is shown. *)
Theorem load_data_never_raises {PR : PandasReaders} (file : UploadedFile)
    (page : list ui_event) :
  ∃ result page',
    load_data file page = (inr result, page')
    ∧ ((∃ df, parses_to file df ∧ result = Some (fillna "-" df) ∧ page' = page)
       ∨ (∃ err, raises_with file err ∧ result = None
                 ∧ page' = page ++ [st_error ("Error reading file: " +:+ exc_text err)])
       ∨ (Py.endswith (name file) ".csv" = false
          ∧ Py.endswith (name file) ".xlsx" = false
          ∧ Py.endswith (name file) ".json" = false
          ∧ result = None ∧ page' = page))
    ∧ (∀ df err, parses_to file df → raises_with file err → False)
    ∧ (∀ df, parses_to file df →
         ¬ (Py.endswith (name file) ".csv" = false
            ∧ Py.endswith (name file) ".xlsx" = false
            ∧ Py.endswith (name file) ".json" = false))
    ∧ (∀ err, raises_with file err →
         ¬ (Py.endswith (name file) ".csv" = false
            ∧ Py.endswith (name file) ".xlsx" = false
            ∧ Py.endswith (name file) ".json" = false)).
Proof.
  assert (∃ result page',
    load_data file page = (inr result, page')
    ∧ ((∃ df, parses_to file df ∧ result = Some (fillna "-" df) ∧ page' = page)
       ∨ (∃ err, raises_with file err ∧ result = None
                 ∧ page' = page ++ [st_error ("Error reading file: " +:+ exc_text err)])
       ∨ (Py.endswith (name file) ".csv" = false
          ∧ Py.endswith (name file) ".xlsx" = false
          ∧ Py.endswith (name file) ".json" = false
          ∧ result = None ∧ page' = page))) as (result & page' & Hload & Hcases).
  { destruct (Py.endswith (name file) ".csv") eqn:Hcsv.
    { destruct (read_csv (content file)) as [err|df] eqn:Hr.
      - assert (raises_with file err) as Hraise by (by left).
        eexists None, _. split; [by apply load_data_reader_raises|].
        right; left. by exists err.
      - assert (parses_to file df) as Hparse by (by left).
        eexists _, _. split; [by apply load_data_parses|]. left. by exists df. }
    destruct (Py.endswith (name file) ".xlsx") eqn:Hxlsx.
    { destruct (read_excel (content file)) as [err|df] eqn:Hr.
      - assert (raises_with file err) as Hraise by (by right; left).
        eexists None, _. split; [by apply load_data_reader_raises|].
        right; left. by exists err.
      - assert (parses_to file df) as Hparse by (by right; left).
        eexists _, _. split; [by apply load_data_parses|]. left. by exists df. }
    destruct (Py.endswith (name file) ".json") eqn:Hjson.
    { destruct (read_json (content file)) as [err|df] eqn:Hr.
      - assert (raises_with file err) as Hraise by (by right; right).
        eexists None, _. split; [by apply load_data_reader_raises|].
        right; left. by exists err.
      - assert (parses_to file df) as Hparse by (by right; right).
        eexists _, _. split; [by apply load_data_parses|]. left. by exists df. }
    exists None, page. split; [by apply load_data_other_suffix|]. by right; right. }
  exists result, page'. split; [done|]. split; [done|].
  unfold parses_to, raises_with. split; [|split].
  - intros df err [[? ?]|[(? & ? & ?)|(? & ? & ? & ?)]]
      [[? ?]|[(? & ? & ?)|(? & ? & ? & ?)]]; congruence.
  - intros df [[? ?]|[(? & ? & ?)|(? & ? & ? & ?)]] (? & ? & ?); congruence.
  - intros err [[? ?]|[(? & ? & ?)|(? & ? & ? & ?)]] (? & ? & ?); congruence.
Qed.

(** ** When the mapping is offered *)

Lemma ready_to_map_true (desc_columns : list string) (key_data : option DataFrame)
    (key_columns : list string) :
  ready_to_map desc_columns key_data key_columns = true
  ↔ desc_columns ≠ [] ∧ is_Some key_data ∧ key_columns ≠ [].
Proof.
  unfold ready_to_map. rewrite !andb_true_iff, !bool_decide_eq_true. tauto.
Qed.

(** X13.  Lines 76-94 never raise, and the guard of the mapping holds
    exactly when a description column is selected and keywords are at hand:
    with an uploaded keyword file, when its reader returned a frame and a
    keyword column is selected; without one, when the text area is not empty
    (even if it holds no keyword). *)
Theorem mapping_is_offered_iff {PR : PandasReaders} (key_dataset_file : option UploadedFile)
    (selected_keys selected_prods desc_columns : list string) (manual_keywords : string)
    (page : list ui_event) :
  ∃ key_data key_columns prod_columns page',
    keyword_source key_dataset_file selected_keys selected_prods manual_keywords page
    = (inr (key_data, key_columns, prod_columns), page')
    ∧ (ready_to_map desc_columns key_data key_columns = true
       ↔ desc_columns ≠ []
         ∧ match key_dataset_file with
           | Some file => (∃ df, parses_to file df) ∧ selected_keys ≠ []
           | None => manual_keywords ≠ ""
           end).
Proof.
  unfold keyword_source, mbind, app_bind, bind.
  destruct key_dataset_file as [file|].
  - unfold key_upload, mbind, app_bind, bind.
    destruct (load_data_cases file page)
      as [(df & Hparse & Hload)|[(err & Hload)|(_ & _ & _ & Hload)]]; rewrite Hload.
    + cbn -[fillna]. destruct selected_keys as [|key keys].
      * do 4 eexists. split; [reflexivity|]. rewrite ready_to_map_true.
        split; [by intros (_ & _ & ?)|by intros (_ & _ & ?)].
      * do 4 eexists. split; [reflexivity|]. rewrite ready_to_map_true.
        split; [intros (? & _ & _); eauto|by intros (? & _)].
    + do 4 eexists. split; [reflexivity|]. rewrite ready_to_map_true.
      split; [by intros (_ & [? [=]] & _)|].
      intros (_ & [df Hparse%(load_data_parses file df page)] & _).
      rewrite Hload in Hparse. discriminate Hparse.
    + do 4 eexists. split; [reflexivity|]. rewrite ready_to_map_true.
      split; [by intros (_ & [? [=]] & _)|].
      intros (_ & [df Hparse%(load_data_parses file df page)] & _).
      rewrite Hload in Hparse. discriminate Hparse.
  - unfold manual_entry. case_decide as Hmanual.
    + do 4 eexists. split; [reflexivity|]. rewrite ready_to_map_true.
      split; [by intros (? & _)|by intros (? & _)].
    + do 4 eexists. split; [reflexivity|]. rewrite ready_to_map_true.
      split; [by intros (_ & [? [=]] & _)|by intros (_ & ?)].
Qed.

(** Text that holds separators only: the mapping is offered, with an
    empty index. *)
Example separators_only_still_enable_mapping :
  @keyword_source two_rows None [] [] " , " []
  = (inr (Some {| columns := ["Keywords"]; rows := [] |}, ["Keywords"], []), [])
  ∧ ready_to_map ["Title"] (Some {| columns := ["Keywords"]; rows := [] |}) ["Keywords"]
    = true.
Proof. split; reflexivity. Qed.
